(** * Invoice OCR & Matching System

    A shallow embedding of [invoice_ocr_matching.py] and the properties of
    its field extraction, ledger matching and batch processing.

    Conventions of the embedding.
    - A Python [str] is a [string]; each character stands for the code point
      of the same number, so the texts covered are those whose code points
      are below 256.  The character tables below are the ones Python uses on
      that range.
    - [re.search] is embedded as a backtracking matcher ([Module Re]) for the
      pattern language the two patterns of the script are written in.
    - A Python [dict] is an association list in insertion order.
    - [pandas], [pdfplumber] and [os] are collaborators: the file system is a
      [World] of read functions, and what the script opens, writes and prints
      is recorded in a [State]. *)

From Stdlib Require Import String Ascii List Bool Arith NArith ZArith Lia.
From Stdlib Require Import DecimalString.
Import ListNotations.
Local Open Scope list_scope.
Local Open Scope string_scope.

(* ================================================================== *)
(** ** Characters *)

Definition ord (c : ascii) : N := N_of_ascii c.
Definition chr (n : N) : ascii := ascii_of_N n.

Definition between (lo hi : N) (c : ascii) : bool :=
  ((lo <=? ord c) && (ord c <=? hi))%N.

(** [str.isspace] on one character: what [\s] matches. *)
Definition isspace (c : ascii) : bool :=
  between 9 13 c || between 28 32 c || (ord c =? 133)%N || (ord c =? 160)%N.

(** [str.isdecimal] on one character: what [\d] matches. *)
Definition isdecimal (c : ascii) : bool := between 48 57 c.

(** [str.isalnum] on one character. *)
Definition isalnum (c : ascii) : bool :=
  between 48 57 c || between 65 90 c || between 97 122 c
  || (ord c =? 170)%N || between 178 179 c || (ord c =? 181)%N
  || between 185 186 c || between 188 190 c
  || between 192 214 c || between 216 246 c || between 248 255 c.

(** What [\w] matches: alphanumerics and the underscore. *)
Definition isword (c : ascii) : bool := isalnum c || (ord c =? 95)%N.

(** Characters that have a distinct lower-case form. *)
Definition has_lower (c : ascii) : bool :=
  between 65 90 c || between 192 214 c || between 216 222 c.

Definition tolower (c : ascii) : ascii :=
  if has_lower c then chr (ord c + 32) else c.

(** [str.lower]. *)
Fixpoint lower (s : string) : string :=
  match s with
  | EmptyString => EmptyString
  | String c s' => String (tolower c) (lower s')
  end.

(** [s.endswith(suffix)]. *)
Definition endswith (s suffix : string) : bool :=
  (String.length suffix <=? String.length s)%nat
  && (substring (String.length s - String.length suffix)
                (String.length suffix) s =? suffix)%string.

(** [s.startswith(p)]. *)
Definition startswith (s p : string) : bool := prefix p s.

(** [sep.join(parts)]. *)
Fixpoint join (sep : string) (parts : list string) : string :=
  match parts with
  | [] => ""
  | [p] => p
  | p :: rest => p ++ sep ++ join sep rest
  end.

(** The line feed, written ["\n"] in the source. *)
Definition LF : string := String (chr 10) "".

(** [str(n)] for a length. *)
Definition str_of_nat (n : nat) : string :=
  NilEmpty.string_of_uint (Nat.to_uint n).

(* ================================================================== *)
(** ** The [re] module: patterns and backtracking search *)

Module Re.

(** Character categories [\s], [\w], [\d]. *)
Inductive category := SPACE | WORD | DIGIT.

(** What may stand inside a bracket set. *)
Inductive setitem :=
| SetLit (c : ascii)
| SetCat (k : category).

(** Pattern elements that consume one character. *)
Inductive atom :=
| Lit (c : ascii)             (* a literal character *)
| Cat (k : category)          (* a category escape   *)
| In (items : list setitem).  (* [...]               *)

(** Greedy repetition: once, [?], [*], [+]. *)
Inductive quant := Once | Optional | ZeroOrMore | OneOrMore.

(** A pattern is a sequence of repeated atoms; [Group] is a repeated atom
    inside the capturing parentheses of group 1. *)
Inductive node :=
| Rep (q : quant) (a : atom)
| Group (q : quant) (a : atom).

Definition pattern := list node.

(** A run of literal characters. *)
Definition literal (s : string) : pattern :=
  map (fun c => Rep Once (Lit c)) (list_ascii_of_string s).

(** Flags: only [re.IGNORECASE] is used by the script. *)
Record flags := { IGNORECASE : bool }.

Definition in_category (k : category) (ch : ascii) : bool :=
  match k with
  | SPACE => isspace ch
  | WORD => isword ch
  | DIGIT => isdecimal ch
  end.

(** A literal matches a character that is equal to it, or, when case is
    ignored, that has the same lower-case form.  This is [re.IGNORECASE] on
    code points below 256, the characters a [string] holds.  Beyond them
    Python also takes U+0130 and U+0131 for an [i], U+017F for an [s] and
    U+212A for a [k]; statements that depend on the letters a keyword
    matches are statements about texts of code points below 256. *)
Definition lit_matches (f : flags) (c ch : ascii) : bool :=
  if IGNORECASE f then Ascii.eqb (tolower ch) (tolower c) else Ascii.eqb ch c.

Definition setitem_matches (f : flags) (it : setitem) (ch : ascii) : bool :=
  match it with
  | SetLit c => lit_matches f c ch
  | SetCat k => in_category k ch
  end.

Definition atom_matches (f : flags) (a : atom) (ch : ascii) : bool :=
  match a with
  | Lit c => lit_matches f c ch
  | Cat k => in_category k ch
  | In items => existsb (fun it => setitem_matches f it ch) items
  end.

Section Matcher.

Context {R : Type}.

(** Greedy [*]: take the character when it matches and go on; when the
    rest of the pattern then fails, give the character back. *)
Fixpoint greedy (p : ascii -> bool) (s : string)
                (k : string -> option R) : option R :=
  match s with
  | String ch s' =>
      if p ch then
        match greedy p s' k with
        | Some r => Some r
        | None => k s
        end
      else k s
  | EmptyString => k s
  end.

(** One repeated atom followed by the rest of the pattern [k]. *)
Definition repeat (q : quant) (p : ascii -> bool) (s : string)
                  (k : string -> option R) : option R :=
  match q with
  | Once =>
      match s with
      | String ch s' => if p ch then k s' else None
      | EmptyString => None
      end
  | Optional =>
      match s with
      | String ch s' =>
          if p ch then
            match k s' with
            | Some r => Some r
            | None => k s
            end
          else k s
      | EmptyString => k s
      end
  | ZeroOrMore => greedy p s k
  | OneOrMore =>
      match s with
      | String ch s' => if p ch then greedy p s' k else None
      | EmptyString => None
      end
  end.

End Matcher.

(** The text between two positions of the subject, given as the suffixes
    that start there. *)
Definition consumed (s s' : string) : string :=
  substring 0 (String.length s - String.length s') s.

(** A match object: the text of group 1, when the group took part. *)
Record MatchObject := { group1 : option string }.

(** Match the pattern at the start of [s]; [g] is group 1 so far. *)
Fixpoint match_here (f : flags) (pat : pattern) (s : string)
                    (g : option string) : option MatchObject :=
  match pat with
  | [] => Some {| group1 := g |}
  | Rep q a :: pat' =>
      repeat q (atom_matches f a) s (fun s' => match_here f pat' s' g)
  | Group q a :: pat' =>
      repeat q (atom_matches f a) s
             (fun s' => match_here f pat' s' (Some (consumed s s')))
  end.

(** [re.search]: the match at the leftmost position that has one. *)
Fixpoint search (pat : pattern) (s : string) (f : flags)
  : option MatchObject :=
  match match_here f pat s None with
  | Some m => Some m
  | None =>
      match s with
      | String _ s' => search pat s' f
      | EmptyString => None
      end
  end.

End Re.

Definition re_IGNORECASE : Re.flags := {| Re.IGNORECASE := true |}.

(* ================================================================== *)
(** ** Python values and dictionaries *)

Inductive value :=
| VNone
| VStr (s : string)
| VBool (b : bool)
| VInt (z : Z)
| VNaN.

(** Truth value of an object, as [if not x] tests it. *)
Definition truthy (v : value) : bool :=
  match v with
  | VNone => false
  | VStr s => negb (s =? "")%string
  | VBool b => b
  | VInt z => negb (z =? 0)%Z
  | VNaN => true
  end.

(** [a == b]. *)
Definition py_eq (a b : value) : bool :=
  match a, b with
  | VNone, VNone => true
  | VStr s, VStr t => (s =? t)%string
  | VBool x, VBool y => Bool.eqb x y
  | VInt x, VInt y => (x =? y)%Z
  | VBool x, VInt y => ((if x then 1 else 0) =? y)%Z
  | VInt x, VBool y => (x =? (if y then 1 else 0))%Z
  | _, _ => false
  end.

(** A [dict] with string keys, in insertion order. *)
Definition dict := list (string * value).

Fixpoint dict_get (d : dict) (k : string) : option value :=
  match d with
  | [] => None
  | (k', v) :: d' => if (k' =? k)%string then Some v else dict_get d' k
  end.

(** [d[k] = v]: an existing key keeps its place, a new one goes last. *)
Fixpoint dict_set (d : dict) (k : string) (v : value) : dict :=
  match d with
  | [] => [(k, v)]
  | (k', v') :: d' =>
      if (k' =? k)%string then (k', v) :: d' else (k', v') :: dict_set d' k v
  end.

Definition keys (d : dict) : list string := map fst d.

(** [m.group(1)] as a Python value. *)
Definition group (m : Re.MatchObject) : value :=
  match Re.group1 m with
  | Some s => VStr s
  | None => VNone
  end.

(* ================================================================== *)
(** ** Field extraction *)

(** [r"Invoice\s*#?\s*(\w+)"] *)
Definition invoice_re : Re.pattern :=
  (Re.literal "Invoice"
  ++ [ Re.Rep Re.ZeroOrMore (Re.Cat Re.SPACE);
       Re.Rep Re.Optional (Re.Lit "#");
       Re.Rep Re.ZeroOrMore (Re.Cat Re.SPACE);
       Re.Group Re.OneOrMore (Re.Cat Re.WORD) ])%list.

(** [r"Total\s*[:\-]?\s*([\d,.]+)"] *)
Definition total_re : Re.pattern :=
  (Re.literal "Total"
  ++ [ Re.Rep Re.ZeroOrMore (Re.Cat Re.SPACE);
       Re.Rep Re.Optional (Re.In [Re.SetLit ":"; Re.SetLit "-"]);
       Re.Rep Re.ZeroOrMore (Re.Cat Re.SPACE);
       Re.Group Re.OneOrMore
         (Re.In [Re.SetCat Re.DIGIT; Re.SetLit ","; Re.SetLit "."]) ])%list.

Definition extract_fields (text : string) : dict :=
  let fields :=
    [ ("invoice_number", VNone);
      ("vendor", VNone);
      ("date", VNone);
      ("total", VNone) ] in
  let num_match := Re.search invoice_re text re_IGNORECASE in
  let fields :=
    match num_match with
    | Some m => dict_set fields "invoice_number" (group m)
    | None => fields
    end in
  let total_match := Re.search total_re text re_IGNORECASE in
  let fields :=
    match total_match with
    | Some m => dict_set fields "total" (group m)
    | None => fields
    end in
  fields.

(* ================================================================== *)
(** ** Exceptions *)

Inductive exn :=
| KeyError (key : string)
| Failure (what : string).  (* raised by a collaborator *)

Inductive result (A : Type) :=
| Ok (a : A)
| Raise (e : exn).

Arguments Ok {A} a.
Arguments Raise {A} e.

(* ================================================================== *)
(** ** Tables *)

(** A [pandas.DataFrame]: named columns and the rows under them. *)
Record DataFrame := {
  columns : list string;
  rows : list (list value)
}.

Fixpoint index_of (name : string) (cols : list string) : option nat :=
  match cols with
  | [] => None
  | c :: cols' =>
      if (c =? name)%string then Some 0
      else option_map S (index_of name cols')
  end.

(** [df[name].values]; a missing column is a [KeyError]. *)
Definition df_getitem (df : DataFrame) (name : string)
  : result (list value) :=
  match index_of name (columns df) with
  | Some i => Ok (map (fun r => nth i r VNaN) (rows df))
  | None => Raise (KeyError name)
  end.

(** [x in values]: some element compares equal to [x]. *)
Definition contains (values : list value) (x : value) : bool :=
  existsb (fun v => py_eq v x) values.

(** [d[k]]; a missing key is a [KeyError]. *)
Definition dict_getitem (d : dict) (k : string) : result value :=
  match dict_get d k with
  | Some v => Ok v
  | None => Raise (KeyError k)
  end.

(** The columns of [pd.DataFrame(records)]: the keys of the records, each
    at its first appearance. *)
Definition add_key (cols : list string) (k : string) : list string :=
  if existsb (String.eqb k) cols then cols else cols ++ [k].

Definition record_columns (records : list dict) : list string :=
  fold_left (fun cols d => fold_left add_key (keys d) cols) records [].

Definition record_row (cols : list string) (d : dict) : list value :=
  map (fun c => match dict_get d c with Some v => v | None => VNaN end) cols.

(** [pd.DataFrame(records)] for a list of dictionaries. *)
Definition DataFrame_of_records (records : list dict) : DataFrame :=
  let cols := record_columns records in
  {| columns := cols; rows := map (record_row cols) records |}.

(* ================================================================== *)
(** ** Ledger matching *)

Definition match_against_po (fields : dict) (purchase_orders : DataFrame)
  : result bool :=
  match dict_getitem fields "invoice_number" with
  | Raise e => Raise e
  | Ok number =>
      if negb (truthy number) then Ok false
      else
        match df_getitem purchase_orders "InvoiceNumber" with
        | Raise e => Raise e
        | Ok values => Ok (contains values number)
        end
  end.

(* ================================================================== *)
(** ** The file system and the effects of a run *)

(** What the script can read. *)
Record World := {
  (** [pd.read_csv(path)] *)
  read_csv : string -> result DataFrame;
  (** [os.listdir(path)], in the order of enumeration *)
  listdir : string -> result (list string);
  (** [pdfplumber.open(path)]: for each page, what [extract_text()] gives *)
  pdf_open : string -> result (list (result (option string)));
  (** the failure of [to_csv(path)], if it fails *)
  to_csv_failure : string -> option exn
}.

(** What the script has done so far. *)
Record State := {
  opened : list string;                  (* documents opened, in order *)
  written : list (string * DataFrame);   (* tables written, in order   *)
  stdout : list string                   (* lines printed, in order    *)
}.

Definition initial : State := {| opened := []; written := []; stdout := [] |}.

(** Computations that change the state and may raise. *)
Definition M (A : Type) : Type := State -> result A * State.

Definition ret {A} (a : A) : M A := fun st => (Ok a, st).

Definition bind {A B} (c : M A) (k : A -> M B) : M B :=
  fun st =>
    match c st with
    | (Ok a, st') => k a st'
    | (Raise e, st') => (Raise e, st')
    end.

Definition lift {A} (r : result A) : M A := fun st => (r, st).

Notation "x <- c ;; k" := (bind c (fun x => k))
  (at level 61, c at next level, right associativity).
Notation "c ;;; k" := (bind c (fun _ => k))
  (at level 61, right associativity).

Definition log_open (path : string) : M unit :=
  fun st => (Ok tt, {| opened := opened st ++ [path];
                       written := written st;
                       stdout := stdout st |}).

(** [df.to_csv(path, index=False)]: the table is written as a whole or the
    call raises and nothing is recorded. *)
Definition to_csv (w : World) (df : DataFrame) (path : string) : M unit :=
  fun st =>
    match to_csv_failure w path with
    | Some e => (Raise e, st)
    | None => (Ok tt, {| opened := opened st;
                         written := written st ++ [(path, df)];
                         stdout := stdout st |})
    end.

(** [print(line)]: writing to the standard output is taken not to fail. *)
Definition print (line : string) : M unit :=
  fun st => (Ok tt, {| opened := opened st;
                       written := written st;
                       stdout := stdout st ++ [line] |}).

(** [os.path.join(a, b)] *)
Definition path_join (a b : string) : string :=
  if startswith b "/" then b
  else if (a =? "")%string || endswith a "/" then a ++ b
  else a ++ "/" ++ b.

(* ================================================================== *)
(** ** Text extraction *)

(** [t or ""] for the text of a page, which may be [None]. *)
Definition or_empty (t : option string) : string :=
  match t with
  | Some t => if (t =? "")%string then "" else t
  | None => ""
  end.

(** The loop over [pdf.pages]: [text.append(page.extract_text() or "")]. *)
Fixpoint page_texts (pages : list (result (option string)))
                    (text : list string) : result (list string) :=
  match pages with
  | [] => Ok text
  | Raise e :: _ => Raise e
  | Ok t :: pages' => page_texts pages' (text ++ [or_empty t])
  end.

Definition extract_text_from_pdf (w : World) (path : string) : M string :=
  log_open path ;;;
  pages <- lift (pdf_open w path) ;;
  text <- lift (page_texts pages []) ;;
  ret (join LF text).

(* ================================================================== *)
(** ** Batch processing *)

(** The body of [for fname in os.listdir(pdf_folder)]. *)
Fixpoint for_each_file (w : World) (pdf_folder : string)
                       (purchase_orders : DataFrame)
                       (names : list string) (results : list dict)
  : M (list dict) :=
  match names with
  | [] => ret results
  | fname :: names' =>
      if negb (endswith (lower fname) ".pdf") then
        for_each_file w pdf_folder purchase_orders names' results
      else
        let path := path_join pdf_folder fname in
        text <- extract_text_from_pdf w path ;;
        let fields := extract_fields text in
        matched <- lift (match_against_po fields purchase_orders) ;;
        let fields := dict_set fields "file" (VStr fname) in
        let fields := dict_set fields "matched" (VBool matched) in
        for_each_file w pdf_folder purchase_orders names' (results ++ [fields])
  end.

Definition summary (n : nat) (output_csv : string) : string :=
  "Processed " ++ str_of_nat n ++ " invoices; results saved to " ++ output_csv.

Definition process_invoices (w : World) (pdf_folder po_csv output_csv : string)
  : M unit :=
  purchase_orders <- lift (read_csv w po_csv) ;;
  names <- lift (listdir w pdf_folder) ;;
  results <- for_each_file w pdf_folder purchase_orders names [] ;;
  to_csv w (DataFrame_of_records results) output_csv ;;;
  print (summary (List.length results) output_csv).

(* ================================================================== *)
(** ** Vocabulary of the statements *)

(** *** Strings *)

(** The longest prefix of characters in a class: what is left after it,
    the prefix itself, and the test of a whole string against a class. *)
Fixpoint skip (p : ascii -> bool) (s : string) : string :=
  match s with
  | String c s' => if p c then skip p s' else s
  | EmptyString => EmptyString
  end.

Fixpoint take (p : ascii -> bool) (s : string) : string :=
  match s with
  | String c s' => if p c then String c (take p s') else EmptyString
  | EmptyString => EmptyString
  end.

Fixpoint all (p : ascii -> bool) (s : string) : bool :=
  match s with
  | String c s' => p c && all p s'
  | EmptyString => true
  end.

(** Dropping at most one character of a class. *)
Definition skip_one (p : ascii -> bool) (s : string) : string :=
  match s with
  | String c s' => if p c then s' else s
  | EmptyString => EmptyString
  end.

(** Removing a keyword from the start of a string, ignoring case. *)
Fixpoint strip_keyword (kw s : string) : option string :=
  match kw with
  | EmptyString => Some s
  | String c kw' =>
      match s with
      | String ch s' =>
          if Ascii.eqb (tolower ch) (tolower c) then strip_keyword kw' s'
          else None
      | EmptyString => None
      end
  end.

(** *** Patterns of the shape [keyword \s* sep? \s* (cls+)]

    Both patterns of [extract_fields] have this shape.  [field_at] reads a
    match at the start of a string without any backtracking, and
    [first_field] reads the first match of a text. *)
Definition field_re (kw : string) (sep cls : Re.atom) : Re.pattern :=
  (Re.literal kw
   ++ [ Re.Rep Re.ZeroOrMore (Re.Cat Re.SPACE);
        Re.Rep Re.Optional sep;
        Re.Rep Re.ZeroOrMore (Re.Cat Re.SPACE);
        Re.Group Re.OneOrMore cls ])%list.

Definition value_start (psep : ascii -> bool) (s1 : string) : string :=
  skip isspace (skip_one psep (skip isspace s1)).

Definition value_at (pcls : ascii -> bool) (s : string) : option string :=
  let w := take pcls s in
  if (w =? "")%string then None else Some w.

Definition field_at (kw : string) (psep pcls : ascii -> bool) (s : string)
  : option string :=
  match strip_keyword kw s with
  | Some s1 => value_at pcls (value_start psep s1)
  | None => None
  end.

Fixpoint first_field (kw : string) (psep pcls : ascii -> bool) (s : string)
  : option string :=
  match field_at kw psep pcls s with
  | Some w => Some w
  | None =>
      match s with
      | String _ s' => first_field kw psep pcls s'
      | EmptyString => None
      end
  end.

Definition found (w : option string) : option Re.MatchObject :=
  option_map (fun w => {| Re.group1 := Some w |}) w.

(** *** What a match is, in words

    [matches_field kw psep pcls m w]: the text [m] is the keyword [kw] in any
    case, white space, at most one separator character, white space, and the
    non-empty run [w] of value characters. *)
Definition matches_field (kw : string) (psep pcls : ascii -> bool)
                         (m w : string) : Prop :=
  exists k sp1 h sp2,
    m = k ++ sp1 ++ h ++ sp2 ++ w
    /\ lower k = lower kw
    /\ all isspace sp1 = true
    /\ (h = "" \/ exists c, h = String c "" /\ psep c = true)
    /\ all isspace sp2 = true
    /\ w <> ""
    /\ all pcls w = true.

(** [text] has the keyword [kw], in any case, somewhere. *)
Definition mentions (kw text : string) : Prop :=
  exists pre k post, text = pre ++ k ++ post /\ lower k = lower kw.

(** The same, as a test. *)
Fixpoint find_keyword (kw s : string) : bool :=
  match strip_keyword kw s with
  | Some _ => true
  | None =>
      match s with
      | String _ s' => find_keyword kw s'
      | EmptyString => false
      end
  end.

(** [m] with value [w] is the leftmost match in [text], and [w] the longest
    value of a match at that place. *)
Definition leftmost_longest (matches : string -> string -> Prop)
                            (text pre m post w : string) : Prop :=
  text = pre ++ m ++ post
  /\ matches m w
  /\ forall pre' m' post' w',
       text = pre' ++ m' ++ post' -> matches m' w' ->
       String.length pre <= String.length pre'
       /\ (String.length pre' = String.length pre ->
           String.length w' <= String.length w).

(** *** The two patterns *)

Definition is_hash (c : ascii) : bool := Ascii.eqb c "#".
Definition is_colon_or_dash (c : ascii) : bool :=
  Ascii.eqb c ":" || Ascii.eqb c "-".
Definition is_amount_char (c : ascii) : bool :=
  isdecimal c || Ascii.eqb c "," || Ascii.eqb c ".".

Definition invoice_sep : Re.atom := Re.Lit "#".
Definition invoice_cls : Re.atom := Re.Cat Re.WORD.
Definition total_sep : Re.atom := Re.In [Re.SetLit ":"; Re.SetLit "-"].
Definition total_cls : Re.atom :=
  Re.In [Re.SetCat Re.DIGIT; Re.SetLit ","; Re.SetLit "."].

(** A text matching [Invoice\s*#?\s*(\w+)], with the text of the group. *)
Definition invoice_match : string -> string -> Prop :=
  matches_field "Invoice" is_hash isword.

(** A text matching [Total\s*[:\-]?\s*([\d,.]+)], with the text of the
    group. *)
Definition total_match : string -> string -> Prop :=
  matches_field "Total" is_colon_or_dash is_amount_char.


Definition spec_total_re : Re.pattern :=
  (Re.literal "Total"
   ++ [ Re.Rep Re.Optional (Re.In [Re.SetLit ":"; Re.SetLit "-"]);
        Re.Rep Re.ZeroOrMore (Re.Cat Re.SPACE);
        Re.Group Re.OneOrMore
          (Re.In [Re.SetCat Re.DIGIT; Re.SetLit ","; Re.SetLit "."]) ])%list.

(** *** Records and ledgers *)

Definition invoice_number (fields : dict) : option value :=
  dict_get fields "invoice_number".

Definition total (fields : dict) : option value := dict_get fields "total".

(** The value is what the annotation [Optional[str]] allows. *)
Definition optional_str (v : option value) : Prop :=
  v = Some VNone \/ exists s, v = Some (VStr s).

(** The ledger has the string [s] in its [InvoiceNumber] column. *)
Definition ledger_has (ledger : DataFrame) (s : string) : Prop :=
  exists values,
    df_getitem ledger "InvoiceNumber" = Ok values /\ In (VStr s) values.

(** A ledger of one column of strings. *)
Definition ledger_of (numbers : list string) : DataFrame :=
  {| columns := ["InvoiceNumber"]; rows := map (fun n => [VStr n]) numbers |}.

(** A table without the [InvoiceNumber] column. *)
Definition no_ledger : DataFrame := {| columns := ["PO"]; rows := [[VInt 7]] |}.

(** *** Runs *)

(** The test of the loop on a directory entry. *)
Definition is_pdf (fname : string) : bool := endswith (lower fname) ".pdf".

(** The text [extract_text_from_pdf] returns for a path. *)
Definition document_text (w : World) (path : string) : result string :=
  fst (extract_text_from_pdf w path initial).

(** The record the loop builds for one entry. *)
Definition file_record (w : World) (pdf_folder : string) (ledger : DataFrame)
                       (fname : string) : result dict :=
  match document_text w (path_join pdf_folder fname) with
  | Raise e => Raise e
  | Ok text =>
      match match_against_po (extract_fields text) ledger with
      | Raise e => Raise e
      | Ok matched =>
          Ok (dict_set (dict_set (extract_fields text) "file" (VStr fname))
                       "matched" (VBool matched))
      end
  end.

(** The state after some more documents were opened. *)
Definition open_more (st : State) (paths : list string) : State :=
  {| opened := opened st ++ paths;
     written := written st;
     stdout := stdout st |}.

Definition output_columns : list string :=
  ["invoice_number"; "vendor"; "date"; "total"; "file"; "matched"].

Definition empty_table : DataFrame := {| columns := []; rows := [] |}.

(** *** Further vocabulary *)

(** Nothing of a class follows: the rest is empty or starts outside it. *)
Definition ends_value (p : ascii -> bool) (post : string) : Prop :=
  post = "" \/ exists c r, post = String c r /\ p c = false.

(** [v.lower()] on an extracted field, [None] staying [None]. *)
Definition lower_value (v : value) : value :=
  match v with
  | VStr s => VStr (lower s)
  | _ => v
  end.

Definition is_line_feed (c : ascii) : bool := Ascii.eqb c (chr 10).

(** A page without text: [extract_text()] gave [None] or [""]. *)
Definition blank_page (t : option string) : Prop := or_empty t = "".

(** The record of a document in which nothing was found. *)
Definition blank_record (fname : string) : dict :=
  [ ("invoice_number", VNone); ("vendor", VNone); ("date", VNone);
    ("total", VNone); ("file", VStr fname); ("matched", VBool false) ].

(** A world given by its parts. *)
Definition world_of (csv : result DataFrame) (dir : result (list string))
                    (pdf : string -> result (list (result (option string))))
                    (failure : option exn) : World :=
  {| read_csv := fun _ => csv;
     listdir := fun _ => dir;
     pdf_open := pdf;
     to_csv_failure := fun _ => failure |}.

(** Documents for the sample worlds: a scan without text, a document with
    a number, and a damaged one. *)
Definition sample_pdf (path : string) : result (list (result (option string))) :=
  if endswith path "blank.pdf" then Ok [Ok None; Ok (Some "")]
  else if endswith path "broken.pdf" then Raise (Failure "unreadable")
  else Ok [Ok (Some "Invoice #A100"); Ok (Some "Total: 250.00")].

(** *** A sample run *)

Definition scenario_text : string := "Invoice #A100" ++ LF ++ "Total: 250.00".

Definition sample_world (names : list string) (numbers : list string)
  : World :=
  {| read_csv := fun _ => Ok (ledger_of numbers);
     listdir := fun _ => Ok names;
     pdf_open := fun path =>
       if endswith path "broken.pdf" then Raise (Failure "unreadable")
       else Ok [Ok (Some scenario_text)];
     to_csv_failure := fun _ => None |}.

(* ================================================================== *)
(** * Properties *)

(** ** Sample runs *)

Example extract_scenario :
  extract_fields scenario_text
  = [ ("invoice_number", VStr "A100"); ("vendor", VNone);
      ("date", VNone); ("total", VStr "250.00") ].
Proof. vm_compute. reflexivity. Qed.

Example run_scenario :
  process_invoices (sample_world ["a.PDF"; "notes.txt"] ["A100"])
                   "in" "po.csv" "out.csv" initial
  = (Ok tt,
     {| opened := ["in/a.PDF"];
        written :=
          [("out.csv",
            {| columns := output_columns;
               rows := [[VStr "A100"; VNone; VNone; VStr "250.00";
                         VStr "a.PDF"; VBool true]] |})];
        stdout := ["Processed 1 invoices; results saved to out.csv"] |}).
Proof. vm_compute. reflexivity. Qed.

Example search_is_case_insensitive :
  Re.search invoice_re "see iNVOICE#12345abc." re_IGNORECASE
  = Some {| Re.group1 := Some "12345abc" |}.
Proof. vm_compute. reflexivity. Qed.

Example search_skips_failed_places :
  Re.search invoice_re "Invoice: 7, invoice 8" re_IGNORECASE
  = Some {| Re.group1 := Some "8" |}.
Proof. vm_compute. reflexivity. Qed.

(** ** Strings *)

Lemma append_assoc (a b c : string) : (a ++ b) ++ c = a ++ b ++ c.
Proof. induction a; simpl; congruence. Qed.

Lemma length_append (a b : string) :
  String.length (a ++ b) = String.length a + String.length b.
Proof. induction a; simpl; congruence. Qed.

Lemma append_inv_length (a b a' b' : string) :
  a ++ b = a' ++ b' -> String.length a = String.length a' ->
  a = a' /\ b = b'.
Proof.
  revert a'. induction a as [|c a IH]; intros [|c' a']; simpl;
    try discriminate; auto.
  intros E L. injection E as -> E. injection L as L.
  destruct (IH _ E L) as [-> ->]. auto.
Qed.

Lemma substring_prefix (a b : string) :
  substring 0 (String.length a) (a ++ b) = a.
Proof.
  induction a as [|c a IH]; simpl.
  - destruct b; reflexivity.
  - now rewrite IH.
Qed.

Lemma lower_length (s : string) : String.length (lower s) = String.length s.
Proof. induction s; simpl; congruence. Qed.

Lemma take_skip (p : ascii -> bool) (s : string) : take p s ++ skip p s = s.
Proof.
  induction s as [|c s IH]; simpl; auto.
  destruct (p c); simpl; congruence.
Qed.

Lemma all_take (p : ascii -> bool) (s : string) : all p (take p s) = true.
Proof.
  induction s as [|c s IH]; simpl; auto.
  destruct (p c) eqn:E; simpl; auto. now rewrite E.
Qed.

Lemma skip_head (p : ascii -> bool) (s : string) c r :
  skip p s = String c r -> p c = false.
Proof.
  induction s as [|c' s IH]; simpl; try discriminate.
  destruct (p c') eqn:E; auto. intros H. injection H as -> _. exact E.
Qed.

Lemma skip_all_append (p : ascii -> bool) (a b : string) :
  all p a = true -> skip p (a ++ b) = skip p b.
Proof.
  induction a as [|c a IH]; simpl; auto.
  intros H. apply andb_prop in H as [-> H]. auto.
Qed.

Lemma take_all_append (p : ascii -> bool) (a b : string) :
  all p a = true -> take p (a ++ b) = a ++ take p b.
Proof.
  induction a as [|c a IH]; simpl; auto.
  intros H. apply andb_prop in H as [-> H]. now rewrite IH.
Qed.

Lemma skip_stuck (p : ascii -> bool) c (s : string) :
  p c = false -> skip p (String c s) = String c s.
Proof. intros E. simpl. now rewrite E. Qed.

Lemma skip_one_split (p : ascii -> bool) (s : string) :
  exists h, s = h ++ skip_one p s
            /\ (h = "" \/ exists c, h = String c "" /\ p c = true).
Proof.
  destruct s as [|c s]; simpl.
  - exists "". auto.
  - destruct (p c) eqn:E.
    + exists (String c ""). split; auto. right. eauto.
    + exists "". auto.
Qed.

Lemma consumed_append (a b : string) : Re.consumed (a ++ b) b = a.
Proof.
  unfold Re.consumed. rewrite length_append.
  replace (String.length a + String.length b - String.length b)
    with (String.length a) by lia.
  apply substring_prefix.
Qed.

Lemma strip_keyword_spec (kw s s1 : string) :
  strip_keyword kw s = Some s1
  <-> exists k, s = k ++ s1 /\ lower k = lower kw.
Proof.
  revert s. induction kw as [|c kw IH]; intros s; simpl.
  - split.
    + intros [= ->]. exists "". auto.
    + intros ([|c k] & -> & E); simpl in *; try discriminate. auto.
  - destruct s as [|ch s].
    + split; try discriminate.
      intros ([|c' k] & E & L); simpl in *; discriminate.
    + destruct (Ascii.eqb_spec (tolower ch) (tolower c)) as [T|T].
      * rewrite IH. split.
        -- intros (k & -> & L). exists (String ch k). simpl. split; congruence.
        -- intros ([|c' k] & E & L); simpl in *; try discriminate.
           injection E as -> ->. injection L as _ L. eauto.
      * split; try discriminate.
        intros ([|c' k] & E & L); simpl in *; try discriminate.
        injection E as -> ->. injection L as L _. contradiction.
Qed.

Lemma mentions_find_keyword (kw text : string) :
  mentions kw text -> find_keyword kw text = true.
Proof.
  intros (pre & k & post & -> & L).
  assert (K : strip_keyword kw (k ++ post) = Some post).
  { apply strip_keyword_spec. eauto. }
  induction pre as [|c pre IH]; simpl append.
  - destruct (k ++ post); cbn [find_keyword]; now rewrite K.
  - cbn [find_keyword]. rewrite IH.
    now destruct (strip_keyword kw (String c (pre ++ k ++ post))).
Qed.

(** ** The matcher *)

(** A greedy star commits to the longest run when the rest of the pattern,
    failing after the run, also fails from every earlier position. *)
Lemma greedy_commit {R : Type} (p : ascii -> bool) (k : string -> option R) :
  (forall ch s', p ch = true -> k (skip p s') = None ->
                 k (String ch s') = None) ->
  forall s, Re.greedy p s k = k (skip p s).
Proof.
  intros Hk s. induction s as [|ch s' IH]; simpl; auto.
  destruct (p ch) eqn:E; auto.
  rewrite IH. destruct (k (skip p s')) eqn:K; auto.
Qed.

Lemma greedy_ext {R : Type} (p q : ascii -> bool) (k : string -> option R) :
  (forall c, p c = q c) -> forall s, Re.greedy p s k = Re.greedy q s k.
Proof.
  intros E s. induction s as [|ch s' IH]; simpl; auto.
  now rewrite E, IH.
Qed.

Lemma repeat_ext {R : Type} (n : Re.quant) (p q : ascii -> bool)
                 (k : string -> option R) :
  (forall c, p c = q c) -> forall s, Re.repeat n p s k = Re.repeat n q s k.
Proof.
  intros E s. destruct n; simpl.
  - destruct s; auto. now rewrite E.
  - destruct s; auto. now rewrite E.
  - now apply greedy_ext.
  - destruct s; auto. rewrite E. destruct (q a); auto. now apply greedy_ext.
Qed.

Lemma match_here_literal (kw : string) (pat : Re.pattern) s g :
  Re.match_here re_IGNORECASE (Re.literal kw ++ pat)%list s g
  = match strip_keyword kw s with
    | Some s1 => Re.match_here re_IGNORECASE pat s1 g
    | None => None
    end.
Proof.
  revert s. induction kw as [|c kw IH]; intros s; simpl; auto.
  destruct s as [|ch s]; auto.
  unfold Re.lit_matches; simpl.
  destruct (Ascii.eqb (tolower ch) (tolower c)); auto.
Qed.

Lemma match_here_rep (n : Re.quant) (a : Re.atom) (p : ascii -> bool)
                     (pat : Re.pattern) s g :
  (forall c, Re.atom_matches re_IGNORECASE a c = p c) ->
  Re.match_here re_IGNORECASE (Re.Rep n a :: pat) s g
  = Re.repeat n p s (fun s' => Re.match_here re_IGNORECASE pat s' g).
Proof. intros E. cbn [Re.match_here]. now apply repeat_ext. Qed.

Lemma match_here_star_space (pat : Re.pattern) s g :
  Re.match_here re_IGNORECASE
    (Re.Rep Re.ZeroOrMore (Re.Cat Re.SPACE) :: pat) s g
  = Re.greedy isspace s (fun s' => Re.match_here re_IGNORECASE pat s' g).
Proof. reflexivity. Qed.

(** ** Patterns of the shape [keyword \s* sep? \s* (cls+)]

    The separator and the class of value characters exclude each other and
    white space.  Then backtracking never changes the outcome: the match at
    a position is [field_at], and the search is [first_field]. *)

Section FieldPattern.

Variables (kw : string) (sep cls : Re.atom) (psep pcls : ascii -> bool).

Hypothesis sep_is : forall c, Re.atom_matches re_IGNORECASE sep c = psep c.
Hypothesis cls_is : forall c, Re.atom_matches re_IGNORECASE cls c = pcls c.
Hypothesis space_not_sep : forall c, isspace c = true -> psep c = false.
Hypothesis space_not_cls : forall c, isspace c = true -> pcls c = false.
Hypothesis sep_not_cls : forall c, psep c = true -> pcls c = false.

Lemma match_group (s : string) g :
  Re.match_here re_IGNORECASE [Re.Group Re.OneOrMore cls] s g
  = found (value_at pcls s).
Proof.
  cbn [Re.match_here]. rewrite (repeat_ext _ _ pcls) by exact cls_is.
  unfold value_at. destruct s as [|ch s']; auto.
  cbn [Re.repeat take].
  destruct (pcls ch) eqn:E; auto.
  rewrite greedy_commit by discriminate.
  cbn [String.eqb found option_map]. do 2 f_equal. f_equal.
  rewrite <- (take_skip pcls s') at 1.
  apply (consumed_append (String ch (take pcls s')) (skip pcls s')).
Qed.

Lemma value_at_space c (s : string) :
  isspace c = true -> value_at pcls (String c s) = None.
Proof. intros H. unfold value_at. simpl. now rewrite space_not_cls. Qed.

Lemma value_at_sep c (s : string) :
  psep c = true -> value_at pcls (String c s) = None.
Proof. intros H. unfold value_at. simpl. now rewrite sep_not_cls. Qed.

Lemma match_space_group (s : string) g :
  Re.match_here re_IGNORECASE
    [Re.Rep Re.ZeroOrMore (Re.Cat Re.SPACE); Re.Group Re.OneOrMore cls] s g
  = found (value_at pcls (skip isspace s)).
Proof.
  rewrite match_here_star_space, greedy_commit.
  - apply match_group.
  - intros ch s' H _. cbv beta. rewrite match_group.
    now rewrite value_at_space.
Qed.

Lemma match_sep_group (s : string) g :
  Re.match_here re_IGNORECASE
    [Re.Rep Re.Optional sep;
     Re.Rep Re.ZeroOrMore (Re.Cat Re.SPACE); Re.Group Re.OneOrMore cls] s g
  = found (value_at pcls (skip isspace (skip_one psep s))).
Proof.
  rewrite (match_here_rep _ _ psep) by exact sep_is.
  destruct s as [|ch s']; cbn [Re.repeat skip_one].
  - apply match_space_group.
  - destruct (psep ch) eqn:E; rewrite !match_space_group; auto.
    destruct (found (value_at pcls (skip isspace s'))) eqn:F; auto.
    destruct (isspace ch) eqn:Sp.
    + rewrite space_not_sep in E by assumption. discriminate.
    + rewrite skip_stuck by assumption. now rewrite value_at_sep.
Qed.

Lemma match_tail (s : string) g :
  Re.match_here re_IGNORECASE
    [Re.Rep Re.ZeroOrMore (Re.Cat Re.SPACE); Re.Rep Re.Optional sep;
     Re.Rep Re.ZeroOrMore (Re.Cat Re.SPACE); Re.Group Re.OneOrMore cls] s g
  = found (value_at pcls (value_start psep s)).
Proof.
  rewrite match_here_star_space, greedy_commit.
  - apply match_sep_group.
  - intros ch s' Sp. cbv beta. rewrite !match_sep_group.
    cbn [skip_one]. rewrite (space_not_sep _ Sp).
    cbn [skip]. rewrite Sp.
    destruct (skip isspace s') as [|c u] eqn:U; auto.
    cbn [skip_one]. destruct (psep c) eqn:E.
    + intros _. now rewrite value_at_sep.
    + now rewrite (skip_stuck _ _ _ (skip_head _ _ _ _ U)).
Qed.

Lemma match_here_field (s : string) :
  Re.match_here re_IGNORECASE (field_re kw sep cls) s None
  = found (field_at kw psep pcls s).
Proof.
  unfold field_re, field_at. rewrite match_here_literal.
  destruct (strip_keyword kw s); auto. apply match_tail.
Qed.

Lemma search_field (s : string) :
  Re.search (field_re kw sep cls) s re_IGNORECASE
  = found (first_field kw psep pcls s).
Proof.
  induction s as [|c s IH]; cbn [Re.search first_field];
    rewrite match_here_field; destruct (field_at _ _ _ _); auto.
Qed.

Lemma value_at_some (s w : string) :
  value_at pcls s = Some w ->
  w <> "" /\ all pcls w = true /\ s = w ++ skip pcls s.
Proof.
  unfold value_at.
  destruct (String.eqb_spec (take pcls s) ""); try discriminate.
  intros [= <-]. repeat split; auto using all_take.
  symmetry. apply take_skip.
Qed.

(** A match read by [field_at] is a match in words. *)
Lemma field_at_sound (s w : string) :
  field_at kw psep pcls s = Some w ->
  exists m post, s = m ++ post /\ matches_field kw psep pcls m w.
Proof.
  unfold field_at.
  destruct (strip_keyword kw s) as [s1|] eqn:K; try discriminate.
  apply strip_keyword_spec in K as (k & -> & L).
  intros V. apply value_at_some in V as (Wn & Wa & Wd).
  unfold value_start in Wd.
  destruct (skip_one_split psep (skip isspace s1)) as (h & Hh & Hsep).
  set (b := skip_one psep (skip isspace s1)) in *.
  exists (k ++ take isspace s1 ++ h ++ take isspace b ++ w),
         (skip pcls (skip isspace b)).
  split.
  - rewrite !append_assoc. f_equal.
    etransitivity; [symmetry; apply (take_skip isspace s1)|]. f_equal.
    etransitivity; [exact Hh|]. f_equal.
    etransitivity; [symmetry; apply (take_skip isspace b)|]. f_equal.
    exact Wd.
  - exists k, (take isspace s1), h, (take isspace b).
    repeat split; auto using all_take.
Qed.

Lemma value_start_value (w post : string) :
  w <> "" -> all pcls w = true ->
  skip isspace (w ++ post) = w ++ post
  /\ skip_one psep (w ++ post) = w ++ post.
Proof.
  destruct w as [|c w]; try contradiction. intros _ A.
  simpl in A. apply andb_prop in A as [A _].
  split; simpl.
  - destruct (isspace c) eqn:E; auto.
    rewrite space_not_cls in A by assumption. discriminate.
  - destruct (psep c) eqn:E; auto.
    rewrite sep_not_cls in A by assumption. discriminate.
Qed.

(** A match in words is read by [field_at], with a value that extends it. *)
Lemma field_at_complete (m post w : string) :
  matches_field kw psep pcls m w ->
  exists more, field_at kw psep pcls (m ++ post) = Some (w ++ more).
Proof.
  intros (k & sp1 & h & sp2 & -> & L & S1 & Hh & S2 & Wn & Wa).
  exists (take pcls post). unfold field_at.
  assert (K : strip_keyword kw ((k ++ sp1 ++ h ++ sp2 ++ w) ++ post)
              = Some (sp1 ++ h ++ sp2 ++ w ++ post)).
  { apply strip_keyword_spec. exists k. split; auto.
    now rewrite !append_assoc. }
  rewrite K. clear K.
  destruct (value_start_value w post Wn Wa) as [E1 E2].
  assert (V : value_start psep (sp1 ++ h ++ sp2 ++ w ++ post) = w ++ post).
  { unfold value_start. rewrite skip_all_append by assumption.
    destruct Hh as [-> | (c & -> & Hc)]; simpl append.
    - rewrite skip_all_append by assumption. now rewrite E1, E2, E1.
    - rewrite skip_stuck.
      + simpl. rewrite Hc. now rewrite skip_all_append.
      + destruct (isspace c) eqn:E; auto.
        rewrite space_not_sep in Hc by assumption. discriminate. }
  rewrite V. unfold value_at. rewrite take_all_append by assumption.
  destruct w; try contradiction. reflexivity.
Qed.

Lemma first_field_some (s w : string) :
  first_field kw psep pcls s = Some w ->
  exists pre rest,
    s = pre ++ rest /\ field_at kw psep pcls rest = Some w
    /\ forall pre' rest',
         s = pre' ++ rest' -> String.length pre' < String.length pre ->
         field_at kw psep pcls rest' = None.
Proof.
  induction s as [|c s IH]; cbn [first_field].
  - destruct (field_at kw psep pcls "") eqn:F; try discriminate.
    intros [= ->]. exists "", "". repeat split; auto.
    simpl. intros. lia.
  - destruct (field_at kw psep pcls (String c s)) eqn:F.
    + intros [= ->]. exists "", (String c s). repeat split; auto.
      simpl. intros. lia.
    + intros H. destruct (IH H) as (pre & rest & -> & Fr & Min).
      exists (String c pre), rest. repeat split; auto.
      intros [|c' p'] rest' E Len; simpl in E.
      * now subst rest'.
      * injection E as -> E. apply (Min _ _ E). simpl in Len. lia.
Qed.

Lemma first_field_none (s : string) :
  first_field kw psep pcls s = None ->
  forall pre rest, s = pre ++ rest -> field_at kw psep pcls rest = None.
Proof.
  induction s as [|c s IH]; cbn [first_field].
  - destruct (field_at kw psep pcls "") eqn:F; try discriminate.
    intros _ [|c p] rest E; simpl in E; try discriminate. now subst.
  - destruct (field_at kw psep pcls (String c s)) eqn:F; try discriminate.
    intros H [|c' p] rest E; simpl in E.
    + now subst.
    + injection E as -> E. eapply IH; eauto.
Qed.

(** When the text has a match, the search returns the value of a leftmost
    match, the longest value there. *)
Lemma search_leftmost_longest (text pre m post w : string) :
  text = pre ++ m ++ post -> matches_field kw psep pcls m w ->
  exists pre0 m0 post0 w0,
    Re.search (field_re kw sep cls) text re_IGNORECASE
    = Some {| Re.group1 := Some w0 |}
    /\ leftmost_longest (matches_field kw psep pcls) text pre0 m0 post0 w0.
Proof.
  intros E Hm. rewrite search_field.
  destruct (first_field kw psep pcls text) as [w0|] eqn:F.
  - destruct (first_field_some _ _ F) as (pre0 & rest0 & E0 & F0 & Min).
    destruct (field_at_sound _ _ F0) as (m0 & post0 & -> & M0).
    exists pre0, m0, post0, w0. split; [reflexivity|].
    split; [exact E0|]. split; [exact M0|].
    intros pre' m' post' w' E' M'.
    destruct (field_at_complete _ post' _ M') as (more & C).
    split.
    + destruct (Nat.le_gt_cases (String.length pre0) (String.length pre'))
        as [Le|Gt]; auto.
      rewrite (Min _ _ E' Gt) in C. discriminate.
    + intros Len. rewrite E0 in E'.
      destruct (append_inv_length _ _ _ _ E' (eq_sym Len)) as [_ R].
      rewrite <- R, F0 in C. injection C as ->.
      rewrite length_append. lia.
  - destruct (field_at_complete _ post _ Hm) as (more & C).
    rewrite (first_field_none _ F _ _ E) in C. discriminate.
Qed.

(** The leftmost match with the longest value has one value only, the one
    the search returns. *)
Lemma search_of_leftmost_longest (text pre m post w : string) :
  leftmost_longest (matches_field kw psep pcls) text pre m post w ->
  Re.search (field_re kw sep cls) text re_IGNORECASE
  = Some {| Re.group1 := Some w |}.
Proof.
  intros (E & Hm & Min).
  destruct (search_leftmost_longest _ _ _ _ _ E Hm)
    as (pre0 & m0 & post0 & w0 & S & E0 & M0 & Min0).
  rewrite S. do 3 f_equal.
  destruct (Min _ _ _ _ E0 M0) as [Le1 Len1].
  destruct (Min0 _ _ _ _ E Hm) as [Le2 Len2].
  assert (Lp : String.length pre0 = String.length pre) by lia.
  specialize (Len1 Lp). specialize (Len2 (eq_sym Lp)).
  rewrite E in E0.
  destruct (append_inv_length _ _ _ _ E0 (eq_sym Lp)) as [_ R].
  destruct (field_at_complete _ post _ Hm) as (more & C).
  destruct (field_at_complete _ post0 _ M0) as (more0 & C0).
  rewrite R, C0 in C. injection C as C.
  apply (append_inv_length _ _ _ _ C). lia.
Qed.

(** Whatever the search returns is the value of a match in the text. *)
Lemma search_some (text : string) (mo : Re.MatchObject) :
  Re.search (field_re kw sep cls) text re_IGNORECASE = Some mo ->
  exists pre m post w,
    Re.group1 mo = Some w /\ text = pre ++ m ++ post
    /\ matches_field kw psep pcls m w.
Proof.
  rewrite search_field.
  destruct (first_field kw psep pcls text) as [w|] eqn:F; try discriminate.
  intros [= <-].
  destruct (first_field_some _ _ F) as (pre & rest & -> & Fr & _).
  destruct (field_at_sound _ _ Fr) as (m & post & -> & Mm).
  exists pre, m, post, w. auto.
Qed.

(** A text that never has the keyword has no match. *)
Lemma search_no_keyword (text : string) :
  ~ mentions kw text ->
  Re.search (field_re kw sep cls) text re_IGNORECASE = None.
Proof.
  intros No.
  destruct (Re.search _ text _) as [mo|] eqn:S; auto.
  destruct (search_some _ _ S) as (pre & m & post & w & _ & -> & Mm).
  destruct Mm as (k & sp1 & h & sp2 & -> & L & _).
  exfalso. apply No.
  exists pre, k, ((sp1 ++ h ++ sp2 ++ w) ++ post). split; auto.
  now rewrite !append_assoc.
Qed.

End FieldPattern.

(** ** The two patterns of [extract_fields] *)

Ltac by_character c :=
  destruct c as [[] [] [] [] [] [] [] []]; vm_compute;
  try reflexivity; try discriminate; auto.

Lemma invoice_re_shape :
  invoice_re = field_re "Invoice" invoice_sep invoice_cls.
Proof. reflexivity. Qed.

Lemma total_re_shape : total_re = field_re "Total" total_sep total_cls.
Proof. reflexivity. Qed.

Lemma invoice_sep_is c :
  Re.atom_matches re_IGNORECASE invoice_sep c = is_hash c.
Proof. by_character c. Qed.

Lemma invoice_cls_is c :
  Re.atom_matches re_IGNORECASE invoice_cls c = isword c.
Proof. reflexivity. Qed.

Lemma total_sep_is c :
  Re.atom_matches re_IGNORECASE total_sep c = is_colon_or_dash c.
Proof. by_character c. Qed.

Lemma total_cls_is c :
  Re.atom_matches re_IGNORECASE total_cls c = is_amount_char c.
Proof. by_character c. Qed.

Lemma space_not_hash c : isspace c = true -> is_hash c = false.
Proof. by_character c. Qed.

Lemma space_not_word c : isspace c = true -> isword c = false.
Proof. by_character c. Qed.

Lemma hash_not_word c : is_hash c = true -> isword c = false.
Proof. by_character c. Qed.

Lemma space_not_colon_or_dash c :
  isspace c = true -> is_colon_or_dash c = false.
Proof. by_character c. Qed.

Lemma space_not_amount c : isspace c = true -> is_amount_char c = false.
Proof. by_character c. Qed.

Lemma colon_or_dash_not_amount c :
  is_colon_or_dash c = true -> is_amount_char c = false.
Proof. by_character c. Qed.



Lemma invoice_search_some (text : string) (mo : Re.MatchObject) :
  Re.search invoice_re text re_IGNORECASE = Some mo ->
  exists pre m post w,
    Re.group1 mo = Some w /\ text = pre ++ m ++ post /\ invoice_match m w.
Proof.
  apply (search_some "Invoice" invoice_sep invoice_cls);
    auto using invoice_sep_is, invoice_cls_is, space_not_hash,
               space_not_word, hash_not_word.
Qed.

Lemma invoice_search_none (text : string) :
  ~ mentions "Invoice" text ->
  Re.search invoice_re text re_IGNORECASE = None.
Proof.
  apply (search_no_keyword "Invoice" invoice_sep invoice_cls is_hash isword);
    auto using invoice_sep_is, invoice_cls_is, space_not_hash,
               space_not_word, hash_not_word.
Qed.

Lemma total_search_found (text pre m post w : string) :
  text = pre ++ m ++ post -> total_match m w ->
  exists pre0 m0 post0 w0,
    Re.search total_re text re_IGNORECASE = Some {| Re.group1 := Some w0 |}
    /\ leftmost_longest total_match text pre0 m0 post0 w0.
Proof.
  apply (search_leftmost_longest "Total" total_sep total_cls);
    auto using total_sep_is, total_cls_is, space_not_colon_or_dash,
               space_not_amount, colon_or_dash_not_amount.
Qed.

Lemma total_search_unique (text pre m post w : string) :
  leftmost_longest total_match text pre m post w ->
  Re.search total_re text re_IGNORECASE = Some {| Re.group1 := Some w |}.
Proof.
  apply (search_of_leftmost_longest "Total" total_sep total_cls);
    auto using total_sep_is, total_cls_is, space_not_colon_or_dash,
               space_not_amount, colon_or_dash_not_amount.
Qed.

(** ** Field extraction *)

Lemma extract_fields_invoice_number (text : string) :
  invoice_number (extract_fields text)
  = Some match Re.search invoice_re text re_IGNORECASE with
         | Some m => group m
         | None => VNone
         end.
Proof.
  unfold extract_fields, invoice_number.
  destruct (Re.search invoice_re text re_IGNORECASE);
    destruct (Re.search total_re text re_IGNORECASE); reflexivity.
Qed.

Lemma extract_fields_total (text : string) :
  total (extract_fields text)
  = Some match Re.search total_re text re_IGNORECASE with
         | Some m => group m
         | None => VNone
         end.
Proof.
  unfold extract_fields, total.
  destruct (Re.search invoice_re text re_IGNORECASE);
    destruct (Re.search total_re text re_IGNORECASE); reflexivity.
Qed.

Lemma extract_fields_shape (text : string) :
  keys (extract_fields text) = ["invoice_number"; "vendor"; "date"; "total"]
  /\ dict_get (extract_fields text) "vendor" = Some VNone
  /\ dict_get (extract_fields text) "date" = Some VNone.
Proof.
  unfold extract_fields.
  destruct (Re.search invoice_re text re_IGNORECASE);
    destruct (Re.search total_re text re_IGNORECASE); repeat split.
Qed.





(** C4, as amended.  When the text has a part matching
    [Total\s*[:\-]?\s*<run>] (keyword in any case, white space allowed on
    both sides of the optional [:] or [-], the run made of digits, commas
    and periods), then it has a leftmost such match, and [extract_fields]
    returns as [total] the longest run of every leftmost match, as it
    stands in the text. *)
Theorem total_first_match (text pre m post w : string) :
  text = pre ++ m ++ post -> total_match m w ->
  (exists pre0 m0 post0 w0,
     leftmost_longest total_match text pre0 m0 post0 w0)
  /\ forall pre0 m0 post0 w0,
       leftmost_longest total_match text pre0 m0 post0 w0 ->
       total (extract_fields text) = Some (VStr w0).
Proof.
  intros E Hm. split.
  - destruct (total_search_found _ _ _ _ _ E Hm)
      as (pre0 & m0 & post0 & w0 & _ & L). eauto.
  - intros pre0 m0 post0 w0 L.
    rewrite extract_fields_total.
    now rewrite (total_search_unique _ _ _ _ _ L).
Qed.

Lemma scenario_total_match : total_match "Total: 250.00" "250.00".
Proof.
  exists "Total", "", ":", " ". repeat split; auto.
  - right. exists ":"%char. split; reflexivity.
  - discriminate.
Qed.

Lemma total_first_match_witness :
  (exists pre0 m0 post0 w0,
     leftmost_longest total_match scenario_text pre0 m0 post0 w0)
  /\ forall pre0 m0 post0 w0,
       leftmost_longest total_match scenario_text pre0 m0 post0 w0 ->
       total (extract_fields scenario_text) = Some (VStr w0).
Proof.
  apply (total_first_match scenario_text ("Invoice #A100" ++ LF)
           "Total: 250.00" "" "250.00").
  - reflexivity.
  - exact scenario_total_match.
Defined.

Example total_of_first_occurrence :
  total (extract_fields "Subtotal: 1,250.50 Tax 3 TOTAL - 1,253.50")
  = Some (VStr "1,250.50").
Proof. vm_compute. reflexivity. Qed.

(** C4, as the specification words it: the run after the first ["Total"]
    that is followed by an optional [:] or [-], optional white space and a
    run is not what [extract_fields] returns. *)
Lemma total_spec_pattern_differs :
  Re.search spec_total_re "Total : 5 Total:7" re_IGNORECASE
  = Some {| Re.group1 := Some "7" |}
  /\ total (extract_fields "Total : 5 Total:7") = Some (VStr "5")
  /\ total (extract_fields "Total : 5 Total:7") <> Some (VStr "7").
Proof. vm_compute. repeat split. discriminate. Qed.

(** ** Ledger matching *)

Lemma py_eq_str (v : value) (s : string) :
  py_eq v (VStr s) = true <-> v = VStr s.
Proof.
  destruct v; simpl; split; try discriminate.
  - intros H. apply String.eqb_eq in H. now subst.
  - intros [= ->]. apply String.eqb_refl.
Qed.

Lemma contains_str (values : list value) (s : string) :
  contains values (VStr s) = true <-> In (VStr s) values.
Proof.
  unfold contains. rewrite existsb_exists. split.
  - intros (v & I & E). apply py_eq_str in E. now subst.
  - intros I. exists (VStr s). split; auto. now apply py_eq_str.
Qed.

Lemma match_against_po_none (fields : dict) (ledger : DataFrame) :
  invoice_number fields = Some VNone ->
  match_against_po fields ledger = Ok false.
Proof.
  unfold invoice_number, match_against_po, dict_getitem.
  now intros ->.
Qed.

Lemma match_against_po_str (fields : dict) (ledger : DataFrame) s :
  invoice_number fields = Some (VStr s) ->
  match_against_po fields ledger
  = if (s =? "")%string then Ok false
    else match df_getitem ledger "InvoiceNumber" with
         | Ok values => Ok (contains values (VStr s))
         | Raise e => Raise e
         end.
Proof.
  unfold invoice_number, match_against_po, dict_getitem.
  intros ->. simpl. destruct (s =? "")%string; simpl; auto.
Qed.

Lemma match_against_po_true_inv (fields : dict) (ledger : DataFrame) s :
  invoice_number fields = Some (VStr s) ->
  match_against_po fields ledger = Ok true ->
  s <> "" /\ ledger_has ledger s.
Proof.
  intros N. rewrite (match_against_po_str _ _ _ N). unfold ledger_has.
  destruct (String.eqb_spec s ""); try discriminate.
  destruct (df_getitem ledger "InvoiceNumber") as [values|];
    try discriminate.
  intros [= C]. apply contains_str in C. eauto.
Qed.

(** C1, as amended.  For a record whose [invoice_number] is a string or
    absent, [match_against_po] returns true exactly when the
    [invoice_number] is a non-empty string equal to one of the values of the
    ledger's [InvoiceNumber] column; a ledger with ["A123"] does not match
    the number ["a123"]. *)
Theorem match_iff_number_in_ledger (fields : dict) (ledger : DataFrame) :
  optional_str (invoice_number fields) ->
  (match_against_po fields ledger = Ok true
   <-> exists s, invoice_number fields = Some (VStr s)
                 /\ s <> "" /\ ledger_has ledger s)
  /\ match_against_po [("invoice_number", VStr "a123")] (ledger_of ["A123"])
     = Ok false.
Proof.
  intros T. split; [|reflexivity].
  destruct T as [N | (s & N)].
  - rewrite (match_against_po_none _ _ N). split; try discriminate.
    intros (s & E & _). congruence.
  - split.
    + intros Mt. exists s. split; auto.
      now apply (match_against_po_true_inv fields ledger).
    + intros (s' & E & Ne & values & D & I).
      assert (s' = s) by congruence. subst s'.
      rewrite (match_against_po_str _ _ _ N).
      destruct (String.eqb_spec s ""); try contradiction.
      rewrite D. f_equal. now apply contains_str.
Qed.

Lemma match_iff_number_in_ledger_witness :
  (match_against_po [("invoice_number", VStr "A123")] (ledger_of ["A123"])
   = Ok true
   <-> exists s, invoice_number [("invoice_number", VStr "A123")]
                 = Some (VStr s)
                 /\ s <> "" /\ ledger_has (ledger_of ["A123"]) s)
  /\ match_against_po [("invoice_number", VStr "a123")] (ledger_of ["A123"])
     = Ok false.
Proof.
  apply (match_iff_number_in_ledger
           [("invoice_number", VStr "A123")] (ledger_of ["A123"])).
  right. exists "A123". reflexivity.
Defined.

(** C1, as stated, fails for the empty string: the ledger has it and the
    record does not match. *)
Lemma match_empty_number_in_ledger :
  ~ (match_against_po [("invoice_number", VStr "")] (ledger_of [""]) = Ok true
     <-> ledger_has (ledger_of [""]) "").
Proof.
  intros [_ H].
  assert (L : ledger_has (ledger_of [""]) "").
  { exists [VStr ""]. split; [reflexivity | now left]. }
  specialize (H L). discriminate H.
Qed.

(** C2.  A record whose [invoice_number] is absent does not match, whatever
    the ledger is. *)
Theorem match_absent_number (fields : dict) (ledger : DataFrame) :
  invoice_number fields = Some VNone ->
  match_against_po fields ledger = Ok false.
Proof.
  unfold invoice_number, match_against_po, dict_getitem.
  intros N. rewrite N. cbn [truthy negb]. reflexivity.
Qed.

Lemma match_absent_number_witness :
  match_against_po (extract_fields "no number here") empty_table = Ok false.
Proof.
  apply (match_absent_number (extract_fields "no number here") empty_table).
  reflexivity.
Defined.

(** C9.  With an [invoice_number] that is [None] or the empty string the
    result is false for every ledger, also one without the [InvoiceNumber]
    column; with a non-empty string the result is that of reading the
    column, a [KeyError] when the column is missing. *)
Theorem match_reads_ledger_only_for_number
        (fields : dict) (ledger : DataFrame) :
  (invoice_number fields = Some VNone
   \/ invoice_number fields = Some (VStr "") ->
   match_against_po fields ledger = Ok false)
  /\ forall s,
       invoice_number fields = Some (VStr s) -> s <> "" ->
       match_against_po fields ledger
       = match df_getitem ledger "InvoiceNumber" with
         | Ok values => Ok (contains values (VStr s))
         | Raise e => Raise e
         end.
Proof.
  split.
  - intros [N | N].
    + now apply match_against_po_none.
    + now rewrite (match_against_po_str _ _ _ N).
  - intros s N Ne. rewrite (match_against_po_str _ _ _ N).
    now destruct (String.eqb_spec s "").
Qed.

Lemma match_reads_ledger_only_for_number_witness :
  match_against_po [("invoice_number", VStr "")] no_ledger = Ok false
  /\ match_against_po [("invoice_number", VStr "A1")] no_ledger
     = Raise (KeyError "InvoiceNumber").
Proof.
  split.
  - apply (proj1 (match_reads_ledger_only_for_number
                    [("invoice_number", VStr "")] no_ledger)).
    right. reflexivity.
  - apply (proj2 (match_reads_ledger_only_for_number
                    [("invoice_number", VStr "A1")] no_ledger) "A1").
    + reflexivity.
    + discriminate.
Defined.

(** C10.  The record of [extract_fields] has the four keys
    [invoice_number], [vendor], [date], [total]; [vendor] and [date] are
    absent; [invoice_number] is absent or a non-empty string of word
    characters; and a record that matches a ledger has a non-empty
    [invoice_number] that the ledger contains. *)
Theorem extract_fields_record (text : string) :
  keys (extract_fields text) = ["invoice_number"; "vendor"; "date"; "total"]
  /\ dict_get (extract_fields text) "vendor" = Some VNone
  /\ dict_get (extract_fields text) "date" = Some VNone
  /\ (invoice_number (extract_fields text) = Some VNone
      \/ exists s, invoice_number (extract_fields text) = Some (VStr s)
                   /\ s <> "" /\ all isword s = true)
  /\ forall ledger,
       match_against_po (extract_fields text) ledger = Ok true ->
       exists s, invoice_number (extract_fields text) = Some (VStr s)
                 /\ s <> "" /\ all isword s = true /\ ledger_has ledger s.
Proof.
  destruct (extract_fields_shape text) as (K & V & D).
  assert (N : invoice_number (extract_fields text) = Some VNone
              \/ exists s, invoice_number (extract_fields text) = Some (VStr s)
                           /\ s <> "" /\ all isword s = true).
  { rewrite extract_fields_invoice_number.
    destruct (Re.search invoice_re text re_IGNORECASE) as [mo|] eqn:S; auto.
    destruct (invoice_search_some _ _ S) as (pre & m & post & w & G & _ & Mm).
    destruct Mm as (k & sp1 & h & sp2 & _ & _ & _ & _ & _ & Wn & Wa).
    right. exists w. unfold group. rewrite G. auto. }
  repeat split; auto.
  intros ledger Mt.
  destruct N as [N | (s & N & Ne & A)].
  - rewrite (match_against_po_none _ _ N) in Mt. discriminate.
  - exists s. repeat split; auto.
    now apply (match_against_po_true_inv (extract_fields text) ledger).
Qed.

Lemma extract_fields_record_witness :
  exists s, invoice_number (extract_fields scenario_text) = Some (VStr s)
            /\ s <> "" /\ all isword s = true
            /\ ledger_has (ledger_of ["A100"]) s.
Proof.
  apply (proj2 (proj2 (proj2 (proj2 (extract_fields_record scenario_text))))
           (ledger_of ["A100"])).
  reflexivity.
Defined.

(** ** Batch processing *)

Lemma open_more_nil (st : State) : open_more st [] = st.
Proof. destruct st. unfold open_more. simpl. now rewrite app_nil_r. Qed.

Lemma open_more_more (st : State) (a b : list string) :
  open_more (open_more st a) b = open_more st (a ++ b)%list.
Proof. unfold open_more. simpl. now rewrite app_assoc. Qed.

(** Extracting the text of a document records that it was opened and
    changes nothing else. *)
Lemma extract_text_from_pdf_run (w : World) (path : string) (st : State) :
  extract_text_from_pdf w path st
  = (document_text w path, open_more st [path]).
Proof.
  unfold document_text, extract_text_from_pdf, bind, lift, log_open, ret.
  simpl. destruct (pdf_open w path) as [pages|e]; auto.
  destruct (page_texts pages []); auto.
Qed.

Lemma for_each_file_skip w folder ledger fname names results st :
  is_pdf fname = false ->
  for_each_file w folder ledger (fname :: names) results st
  = for_each_file w folder ledger names results st.
Proof. unfold is_pdf. intros E. cbn [for_each_file]. now rewrite E. Qed.

Lemma for_each_file_pdf w folder ledger fname names results st :
  is_pdf fname = true ->
  for_each_file w folder ledger (fname :: names) results st
  = match file_record w folder ledger fname with
    | Ok d =>
        for_each_file w folder ledger names (results ++ [d])%list
                      (open_more st [path_join folder fname])
    | Raise e => (Raise e, open_more st [path_join folder fname])
    end.
Proof.
  unfold is_pdf. intros E. cbn [for_each_file]. rewrite E. cbn [negb].
  unfold bind at 1. rewrite extract_text_from_pdf_run. unfold file_record.
  destruct (document_text w (path_join folder fname)) as [text|e]; auto.
  unfold bind, lift.
  destruct (match_against_po (extract_fields text) ledger); auto.
Qed.

(** When every document yields a record, the loop returns the records in
    the order of the entries. *)
Lemma for_each_file_ok w folder ledger names recs :
  Forall2 (fun f d => file_record w folder ledger f = Ok d)
          (filter is_pdf names) recs ->
  forall results st,
    for_each_file w folder ledger names results st
    = (Ok (results ++ recs)%list,
       open_more st (map (path_join folder) (filter is_pdf names))).
Proof.
  revert recs. induction names as [|f names IH]; intros recs F results st.
  - inversion F. simpl. now rewrite app_nil_r, open_more_nil.
  - cbn [filter] in *. destruct (is_pdf f) eqn:P.
    + inversion F as [|? d ? recs' Fd F']; subst.
      rewrite for_each_file_pdf, Fd by assumption.
      rewrite (IH _ F'). rewrite open_more_more, <- app_assoc. reflexivity.
    + rewrite for_each_file_skip by assumption. now apply IH.
Qed.

(** A loop that completes has built one record for each [.pdf] entry, in
    the order of the entries. *)
Lemma for_each_file_inv w folder ledger names :
  forall results st rs st',
    for_each_file w folder ledger names results st = (Ok rs, st') ->
    exists recs,
      rs = (results ++ recs)%list
      /\ Forall2 (fun f d => file_record w folder ledger f = Ok d)
                 (filter is_pdf names) recs.
Proof.
  induction names as [|f names IH]; intros results st rs st' H.
  - injection H as <- _. exists []. split; [now rewrite app_nil_r | constructor].
  - cbn [filter]. destruct (is_pdf f) eqn:P.
    + rewrite for_each_file_pdf in H by assumption.
      destruct (file_record w folder ledger f) as [d|e] eqn:Fd;
        try discriminate.
      destruct (IH _ _ _ _ H) as (recs & -> & F).
      exists (d :: recs). split; [now rewrite <- app_assoc | now constructor].
    + rewrite for_each_file_skip in H by assumption. eauto.
Qed.

(** A document that cannot be read stops the loop with its exception,
    after the documents before it and before any that follows. *)
Lemma for_each_file_raise w folder ledger before fname after e :
  is_pdf fname = true ->
  (forall f, In f (filter is_pdf before) ->
             exists d, file_record w folder ledger f = Ok d) ->
  document_text w (path_join folder fname) = Raise e ->
  forall results st,
    for_each_file w folder ledger (before ++ fname :: after)%list results st
    = (Raise e,
       open_more st (map (path_join folder) (filter is_pdf before)
                     ++ [path_join folder fname])%list).
Proof.
  intros P B D. induction before as [|f before IH]; intros results st.
  - simpl app. rewrite for_each_file_pdf by assumption.
    unfold file_record. now rewrite D.
  - simpl app. cbn [filter] in *. destruct (is_pdf f) eqn:Pf.
    + rewrite for_each_file_pdf by assumption.
      destruct (B f (or_introl eq_refl)) as [d ->].
      rewrite IH by (intros; apply B; now right).
      now rewrite open_more_more.
    + rewrite for_each_file_skip by assumption. now apply IH.
Qed.

Lemma process_invoices_run w folder po out st :
  process_invoices w folder po out st
  = match read_csv w po with
    | Raise e => (Raise e, st)
    | Ok ledger =>
        match listdir w folder with
        | Raise e => (Raise e, st)
        | Ok names =>
            match for_each_file w folder ledger names [] st with
            | (Raise e, st1) => (Raise e, st1)
            | (Ok results, st1) =>
                match to_csv_failure w out with
                | Some e => (Raise e, st1)
                | None =>
                    (Ok tt,
                     {| opened := opened st1;
                        written := (written st1
                                    ++ [(out, DataFrame_of_records results)])%list;
                        stdout := (stdout st1
                                   ++ [summary (List.length results) out])%list |})
                end
            end
        end
    end.
Proof.
  unfold process_invoices, bind, lift, to_csv, print.
  destruct (read_csv w po) as [ledger|]; auto.
  destruct (listdir w folder) as [names|]; auto.
  destruct (for_each_file w folder ledger names [] st) as [[results|] st1];
    auto.
  destruct (to_csv_failure w out); auto.
Qed.

Lemma file_record_shape w folder ledger f d :
  file_record w folder ledger f = Ok d ->
  dict_get d "file" = Some (VStr f) /\ keys d = output_columns.
Proof.
  unfold file_record.
  destruct (document_text w (path_join folder f)) as [text|]; try discriminate.
  destruct (match_against_po (extract_fields text) ledger); try discriminate.
  intros [= <-]. unfold extract_fields.
  destruct (Re.search invoice_re text re_IGNORECASE);
    destruct (Re.search total_re text re_IGNORECASE); split; reflexivity.
Qed.

Lemma records_files w folder ledger names recs :
  Forall2 (fun f d => file_record w folder ledger f = Ok d) names recs ->
  map (fun d => dict_get d "file") recs
  = map (fun n => Some (VStr n)) names.
Proof.
  induction 1 as [|f d names recs Fd _ IH]; simpl; auto.
  f_equal; auto. now apply (file_record_shape _ _ _ _ _ Fd).
Qed.

(** With at least one record, the table has the six columns. *)
Lemma record_columns_uniform (records : list dict) :
  Forall (fun d => keys d = output_columns) records ->
  records <> [] ->
  record_columns records = output_columns.
Proof.
  unfold record_columns.
  assert (G : forall rs, Forall (fun d => keys d = output_columns) rs ->
              fold_left (fun cols d => fold_left add_key (keys d) cols)
                        rs output_columns = output_columns).
  { induction 1 as [|d rs Kd _ IH]; simpl; auto. now rewrite Kd. }
  intros F Ne. destruct F as [|d rs Kd F]; try contradiction.
  simpl. rewrite Kd. now apply G.
Qed.

(** C7.  A run that completes has written a table with one record for each
    directory entry whose name ends with [.pdf] in any case, in the order
    of the entries, and no record for any other entry. *)
Theorem one_record_per_pdf w folder po out st st' :
  process_invoices w folder po out st = (Ok tt, st') ->
  exists names results,
    listdir w folder = Ok names
    /\ written st' = (written st ++ [(out, DataFrame_of_records results)])%list
    /\ map (fun d => dict_get d "file") results
       = map (fun n => Some (VStr n)) (filter is_pdf names)
    /\ List.length (rows (DataFrame_of_records results))
       = List.length (filter is_pdf names).
Proof.
  rewrite process_invoices_run.
  destruct (read_csv w po) as [ledger|]; try discriminate.
  destruct (listdir w folder) as [names|]; try discriminate.
  destruct (for_each_file w folder ledger names [] st)
    as [[results|] st1] eqn:L; try discriminate.
  destruct (to_csv_failure w out); try discriminate.
  intros [= <-].
  destruct (for_each_file_inv _ _ _ _ _ _ _ _ L) as (recs & -> & F).
  pose proof (for_each_file_ok _ _ _ _ _ F [] st) as L'.
  rewrite L in L'. injection L' as ->.
  exists names, recs. simpl. repeat split.
  - now apply (records_files w folder ledger).
  - rewrite length_map. symmetry. apply (Forall2_length F).
Qed.

Lemma one_record_per_pdf_witness :
  exists names results,
    listdir (sample_world ["a.PDF"; "notes.txt"; "b.pdf"; "pdf"] ["A100"]) "in"
    = Ok names
    /\ [("out.csv",
         {| columns := output_columns;
            rows := [[VStr "A100"; VNone; VNone; VStr "250.00";
                      VStr "a.PDF"; VBool true];
                     [VStr "A100"; VNone; VNone; VStr "250.00";
                      VStr "b.pdf"; VBool true]] |})]
       = ([] ++ [("out.csv", DataFrame_of_records results)])%list
    /\ map (fun d => dict_get d "file") results
       = map (fun n => Some (VStr n)) (filter is_pdf names)
    /\ List.length (rows (DataFrame_of_records results))
       = List.length (filter is_pdf names).
Proof.
  apply (one_record_per_pdf
           (sample_world ["a.PDF"; "notes.txt"; "b.pdf"; "pdf"] ["A100"])
           "in" "po.csv" "out.csv" initial
           {| opened := ["in/a.PDF"; "in/b.pdf"];
              written :=
                [("out.csv",
                  {| columns := output_columns;
                     rows := [[VStr "A100"; VNone; VNone; VStr "250.00";
                               VStr "a.PDF"; VBool true];
                              [VStr "A100"; VNone; VNone; VStr "250.00";
                               VStr "b.pdf"; VBool true]] |})];
              stdout := ["Processed 2 invoices; results saved to out.csv"] |}).
  vm_compute. reflexivity.
Defined.

(** C5.  One document with the text ["Invoice #A100\nTotal: 250.00"]: the
    run writes one row with [invoice_number] A100, no [vendor], no [date],
    [total] 250.00, the name of the document, and [matched] true when the
    ledger has A100 in its [InvoiceNumber] column, false when it has not. *)
Theorem scenario_run w folder po out ledger names fname values st :
  read_csv w po = Ok ledger ->
  listdir w folder = Ok names ->
  filter is_pdf names = [fname] ->
  document_text w (path_join folder fname) = Ok scenario_text ->
  df_getitem ledger "InvoiceNumber" = Ok values ->
  to_csv_failure w out = None ->
  exists matched,
    process_invoices w folder po out st
    = (Ok tt,
       {| opened := (opened st ++ [path_join folder fname])%list;
          written :=
            (written st
             ++ [(out,
                  {| columns := output_columns;
                     rows := [[VStr "A100"; VNone; VNone; VStr "250.00";
                               VStr fname; VBool matched]] |})])%list;
          stdout := (stdout st ++ [summary 1 out])%list |})
    /\ (In (VStr "A100") values -> matched = true)
    /\ (~ In (VStr "A100") values -> matched = false).
Proof.
  intros Hcsv Hdir Hpdf Htext Hcol Hout.
  exists (contains values (VStr "A100")).
  assert (R : file_record w folder ledger fname
              = Ok [ ("invoice_number", VStr "A100"); ("vendor", VNone);
                     ("date", VNone); ("total", VStr "250.00");
                     ("file", VStr fname);
                     ("matched", VBool (contains values (VStr "A100"))) ]).
  { unfold file_record. rewrite Htext.
    rewrite (match_against_po_str _ _ "A100") by reflexivity.
    simpl String.eqb. cbv iota. rewrite Hcol. rewrite extract_scenario.
    reflexivity. }
  split; [|split].
  - rewrite process_invoices_run, Hcsv, Hdir.
    rewrite (for_each_file_ok w folder ledger names
               [[ ("invoice_number", VStr "A100"); ("vendor", VNone);
                  ("date", VNone); ("total", VStr "250.00");
                  ("file", VStr fname);
                  ("matched", VBool (contains values (VStr "A100"))) ]]).
    + rewrite Hout, Hpdf. reflexivity.
    + rewrite Hpdf. constructor; [exact R | constructor].
  - intros I. now apply contains_str.
  - intros I. destruct (contains values (VStr "A100")) eqn:C; auto.
    apply contains_str in C. contradiction.
Qed.

Lemma scenario_run_witness :
  (exists matched,
     process_invoices (sample_world ["scan.pdf"] ["B7"; "A100"])
                      "in" "po.csv" "out.csv" initial
     = (Ok tt,
        {| opened := ["in/scan.pdf"];
           written :=
             [("out.csv",
               {| columns := output_columns;
                  rows := [[VStr "A100"; VNone; VNone; VStr "250.00";
                            VStr "scan.pdf"; VBool matched]] |})];
           stdout := ["Processed 1 invoices; results saved to out.csv"] |})
     /\ (In (VStr "A100") [VStr "B7"; VStr "A100"] -> matched = true)
     /\ (~ In (VStr "A100") [VStr "B7"; VStr "A100"] -> matched = false))
  /\ (exists matched,
        process_invoices (sample_world ["scan.pdf"] ["B7"])
                         "in" "po.csv" "out.csv" initial
        = (Ok tt,
           {| opened := ["in/scan.pdf"];
              written :=
                [("out.csv",
                  {| columns := output_columns;
                     rows := [[VStr "A100"; VNone; VNone; VStr "250.00";
                               VStr "scan.pdf"; VBool matched]] |})];
              stdout := ["Processed 1 invoices; results saved to out.csv"] |})
        /\ (In (VStr "A100") [VStr "B7"] -> matched = true)
        /\ (~ In (VStr "A100") [VStr "B7"] -> matched = false)).
Proof.
  split.
  - apply (scenario_run (sample_world ["scan.pdf"] ["B7"; "A100"])
             "in" "po.csv" "out.csv" (ledger_of ["B7"; "A100"])
             ["scan.pdf"] "scan.pdf" [VStr "B7"; VStr "A100"] initial);
      reflexivity.
  - apply (scenario_run (sample_world ["scan.pdf"] ["B7"])
             "in" "po.csv" "out.csv" (ledger_of ["B7"])
             ["scan.pdf"] "scan.pdf" [VStr "B7"] initial);
      reflexivity.
Defined.

(** C6, as amended.  A folder without [.pdf] entries: the run writes a
    table with no row and no column, the columns being those of the
    records, and prints that 0 invoices were processed. *)
Theorem empty_folder_run w folder po out ledger names st :
  read_csv w po = Ok ledger ->
  listdir w folder = Ok names ->
  filter is_pdf names = [] ->
  to_csv_failure w out = None ->
  process_invoices w folder po out st
  = (Ok tt,
     {| opened := opened st;
        written := (written st ++ [(out, empty_table)])%list;
        stdout :=
          (stdout st
           ++ [("Processed 0 invoices; results saved to " ++ out)%string])%list
     |}).
Proof.
  intros Hcsv Hdir Hpdf Hout.
  rewrite process_invoices_run, Hcsv, Hdir.
  rewrite (for_each_file_ok w folder ledger names []).
  - rewrite Hout, Hpdf. simpl. now rewrite app_nil_r.
  - rewrite Hpdf. constructor.
Qed.

Lemma empty_folder_run_witness :
  process_invoices (sample_world ["notes.txt"] ["A100"])
                   "in" "po.csv" "out.csv" initial
  = (Ok tt,
     {| opened := [];
        written := [("out.csv", empty_table)];
        stdout := ["Processed 0 invoices; results saved to out.csv"] |}).
Proof.
  apply (empty_folder_run (sample_world ["notes.txt"] ["A100"])
           "in" "po.csv" "out.csv" (ledger_of ["A100"]) ["notes.txt"] initial);
    reflexivity.
Defined.

(** C6, as stated, fails: the table written for an empty folder does not
    have the six columns. *)
Lemma empty_folder_has_no_columns :
  exists df,
    written (snd (process_invoices (sample_world [] ["A100"])
                                   "in" "po.csv" "out.csv" initial))
    = [("out.csv", df)]
    /\ columns df = []
    /\ columns df <> output_columns.
Proof.
  exists empty_table. repeat split. discriminate.
Qed.

(** C8.  When the text of a document cannot be extracted, the run raises
    that exception; the documents before it were opened, none after it is,
    no table is written and nothing is printed. *)
Theorem extraction_failure_aborts
        w folder po out ledger names before fname after e st :
  read_csv w po = Ok ledger ->
  listdir w folder = Ok names ->
  names = (before ++ fname :: after)%list ->
  is_pdf fname = true ->
  (forall f, In f (filter is_pdf before) ->
             exists d, file_record w folder ledger f = Ok d) ->
  document_text w (path_join folder fname) = Raise e ->
  process_invoices w folder po out st
  = (Raise e,
     {| opened :=
          (opened st
           ++ (map (path_join folder) (filter is_pdf before)
               ++ [path_join folder fname]))%list;
        written := written st;
        stdout := stdout st |}).
Proof.
  intros Hcsv Hdir -> P B D.
  rewrite process_invoices_run, Hcsv, Hdir.
  now rewrite (for_each_file_raise w folder ledger before fname after e P B D).
Qed.

Lemma extraction_failure_aborts_witness :
  process_invoices
    (sample_world ["a.pdf"; "broken.pdf"; "c.pdf"] ["A100"])
    "in" "po.csv" "out.csv" initial
  = (Raise (Failure "unreadable"),
     {| opened := ["in/a.pdf"; "in/broken.pdf"];
        written := [];
        stdout := [] |}).
Proof.
  apply (extraction_failure_aborts
           (sample_world ["a.pdf"; "broken.pdf"; "c.pdf"] ["A100"])
           "in" "po.csv" "out.csv" (ledger_of ["A100"])
           ["a.pdf"; "broken.pdf"; "c.pdf"] ["a.pdf"] "broken.pdf" ["c.pdf"]
           (Failure "unreadable") initial); try reflexivity.
  intros f [<- | []]. eexists. vm_compute. reflexivity.
Defined.

(* ================================================================== *)
(** * Further properties *)

(** ** Text extraction *)

Lemma page_texts_ok (ts : list (option string)) (text : list string) :
  page_texts (map Ok ts) text = Ok (text ++ map or_empty ts)%list.
Proof.
  revert text. induction ts as [|t ts IH]; intros text; simpl.
  - now rewrite app_nil_r.
  - rewrite IH, <- app_assoc. reflexivity.
Qed.

Lemma page_texts_raise (ts : list (option string)) e rest text :
  page_texts (map Ok ts ++ Raise e :: rest)%list text = Raise e.
Proof.
  revert text. induction ts as [|t ts IH]; intros text; simpl; auto.
Qed.

Lemma document_text_pages (w : World) (path : string) :
  document_text w path
  = match pdf_open w path with
    | Raise e => Raise e
    | Ok pages =>
        match page_texts pages [] with
        | Ok text => Ok (join LF text)
        | Raise e => Raise e
        end
    end.
Proof.
  unfold document_text, extract_text_from_pdf, bind, lift, log_open, ret.
  simpl. destruct (pdf_open w path) as [pages|e]; auto.
  destruct (page_texts pages []); auto.
Qed.

(** X1.  When every page of a document can be read, the text is the texts
    of the pages in order, a page without text counting as the empty
    string, joined by line feeds; the document is the only one opened. *)
Theorem text_of_pages w path (ts : list (option string)) st :
  pdf_open w path = Ok (map Ok ts) ->
  extract_text_from_pdf w path st
  = (Ok (join LF (map or_empty ts)), open_more st [path]).
Proof.
  intros H. rewrite extract_text_from_pdf_run, document_text_pages, H.
  now rewrite page_texts_ok.
Qed.

Lemma text_of_pages_witness :
  extract_text_from_pdf
    (world_of (Ok empty_table) (Ok [])
              (fun _ => Ok [Ok (Some "Invoice 7"); Ok None; Ok (Some "Total 3")])
              None)
    "a.pdf" initial
  = (Ok ("Invoice 7" ++ LF ++ "" ++ LF ++ "Total 3"),
     {| opened := ["a.pdf"]; written := []; stdout := [] |}).
Proof.
  apply (text_of_pages
           (world_of (Ok empty_table) (Ok [])
              (fun _ => Ok [Ok (Some "Invoice 7"); Ok None; Ok (Some "Total 3")])
              None)
           "a.pdf" [Some "Invoice 7"; None; Some "Total 3"] initial).
  reflexivity.
Defined.

(** X2.  When the document cannot be opened, or one of its pages cannot be
    read, [extract_text_from_pdf] raises that exception: the text of the
    pages before the failing one is not returned. *)
Theorem unreadable_page_raises w path e st :
  pdf_open w path = Raise e
  \/ (exists ts rest, pdf_open w path = Ok (map Ok ts ++ Raise e :: rest)%list) ->
  extract_text_from_pdf w path st = (Raise e, open_more st [path]).
Proof.
  intros H. rewrite extract_text_from_pdf_run, document_text_pages.
  destruct H as [-> | (ts & rest & ->)]; auto.
  now rewrite page_texts_raise.
Qed.

Lemma unreadable_page_raises_witness :
  extract_text_from_pdf
    (world_of (Ok empty_table) (Ok [])
              (fun _ => Ok [Ok (Some "Invoice 7"); Raise (Failure "page 2")])
              None)
    "a.pdf" initial
  = (Raise (Failure "page 2"),
     {| opened := ["a.pdf"]; written := []; stdout := [] |}).
Proof.
  apply (unreadable_page_raises
           (world_of (Ok empty_table) (Ok [])
              (fun _ => Ok [Ok (Some "Invoice 7"); Raise (Failure "page 2")])
              None)
           "a.pdf" (Failure "page 2") initial).
  right. exists [Some "Invoice 7"], []. reflexivity.
Defined.

(** ** Documents without text *)

Lemma all_append (p : ascii -> bool) (a b : string) :
  all p (a ++ b) = all p a && all p b.
Proof. induction a as [|c a IH]; simpl; auto. now rewrite IH, andb_assoc. Qed.

Lemma join_blank_pages (ts : list (option string)) :
  Forall blank_page ts ->
  all is_line_feed (join LF (map or_empty ts)) = true.
Proof.
  induction 1 as [|t ts Bt _ IH]; auto.
  cbn [map join]. rewrite Bt.
  destruct (map or_empty ts) as [|u us] eqn:E; auto.
Qed.

(** A text made of characters that do not start the keyword does not
    mention it. *)
Lemma no_keyword_among (p : ascii -> bool) k0 kw (text : string) :
  all p text = true ->
  (forall c, p c = true -> tolower c <> tolower k0) ->
  ~ mentions (String k0 kw) text.
Proof.
  intros A Hp (pre & k & post & -> & L).
  destruct k as [|c k]; try discriminate.
  injection L as L _.
  rewrite all_append in A. apply andb_prop in A as [_ A].
  simpl in A. apply andb_prop in A as [A _]. now apply (Hp c).
Qed.

Lemma total_search_some (text : string) (mo : Re.MatchObject) :
  Re.search total_re text re_IGNORECASE = Some mo ->
  exists pre m post w,
    Re.group1 mo = Some w /\ text = pre ++ m ++ post /\ total_match m w.
Proof.
  apply (search_some "Total" total_sep total_cls);
    auto using total_sep_is, total_cls_is, space_not_colon_or_dash,
               space_not_amount, colon_or_dash_not_amount.
Qed.

Lemma total_search_none (text : string) :
  ~ mentions "Total" text ->
  Re.search total_re text re_IGNORECASE = None.
Proof.
  apply (search_no_keyword "Total" total_sep total_cls
           is_colon_or_dash is_amount_char);
    auto using total_sep_is, total_cls_is, space_not_colon_or_dash,
               space_not_amount, colon_or_dash_not_amount.
Qed.

Lemma line_feeds_have_no_fields (text : string) :
  all is_line_feed text = true ->
  extract_fields text
  = [ ("invoice_number", VNone); ("vendor", VNone);
      ("date", VNone); ("total", VNone) ].
Proof.
  intros A. unfold extract_fields.
  rewrite invoice_search_none, total_search_none; auto.
  - apply (no_keyword_among is_line_feed); auto.
    intros c; by_character c.
  - apply (no_keyword_among is_line_feed); auto.
    intros c; by_character c.
Qed.

(** X3.  A document whose pages all have no text (a scan without a text
    layer) still gives a record: the four fields are absent and [matched]
    is false, whatever the ledger is, also one without the [InvoiceNumber]
    column; the loop goes on with the next entry. *)
Theorem blank_document_record
        w folder ledger fname names (ts : list (option string)) results st :
  is_pdf fname = true ->
  pdf_open w (path_join folder fname) = Ok (map Ok ts) ->
  Forall blank_page ts ->
  for_each_file w folder ledger (fname :: names) results st
  = for_each_file w folder ledger names
                  (results ++ [blank_record fname])%list
                  (open_more st [path_join folder fname]).
Proof.
  intros P O B. rewrite for_each_file_pdf by assumption.
  unfold file_record. rewrite document_text_pages, O, page_texts_ok.
  simpl app. rewrite (line_feeds_have_no_fields _ (join_blank_pages _ B)).
  reflexivity.
Qed.

Lemma blank_document_record_witness :
  for_each_file (world_of (Ok no_ledger) (Ok ["blank.pdf"]) sample_pdf None)
                "in" no_ledger ["blank.pdf"] [] initial
  = for_each_file (world_of (Ok no_ledger) (Ok ["blank.pdf"]) sample_pdf None)
                  "in" no_ledger []
                  ([] ++ [blank_record "blank.pdf"])%list
                  (open_more initial [path_join "in" "blank.pdf"]).
Proof.
  apply (blank_document_record
           (world_of (Ok no_ledger) (Ok ["blank.pdf"]) sample_pdf None)
           "in" no_ledger "blank.pdf" [] [None; Some ""] [] initial).
  - reflexivity.
  - reflexivity.
  - repeat constructor.
Defined.

(** ** More on field extraction *)

(** X4.  [total] is absent when the text does not have the keyword
    ["Total"] in any case; when it is present, it is a non-empty string made
    of digits, commas and periods only. *)
Theorem total_field (text : string) :
  (~ mentions "Total" text -> total (extract_fields text) = Some VNone)
  /\ (total (extract_fields text) = Some VNone
      \/ exists s, total (extract_fields text) = Some (VStr s)
                   /\ s <> "" /\ all is_amount_char s = true).
Proof.
  rewrite extract_fields_total. split.
  - intros No. now rewrite total_search_none.
  - destruct (Re.search total_re text re_IGNORECASE) as [mo|] eqn:S; auto.
    destruct (total_search_some _ _ S) as (pre & m & post & w & G & _ & Mm).
    destruct Mm as (k & sp1 & h & sp2 & _ & _ & _ & _ & _ & Wn & Wa).
    right. exists w. unfold group. rewrite G. auto.
Qed.

Lemma total_field_witness :
  total (extract_fields "Invoice #A100, to pay: 250.00") = Some VNone.
Proof.
  apply (proj1 (total_field "Invoice #A100, to pay: 250.00")).
  intros M. apply mentions_find_keyword in M. discriminate M.
Defined.

Section Delimited.

Variables (kw : string) (sep cls : Re.atom) (psep pcls : ascii -> bool).

Hypothesis sep_is : forall c, Re.atom_matches re_IGNORECASE sep c = psep c.
Hypothesis cls_is : forall c, Re.atom_matches re_IGNORECASE cls c = pcls c.
Hypothesis space_not_sep : forall c, isspace c = true -> psep c = false.
Hypothesis space_not_cls : forall c, isspace c = true -> pcls c = false.
Hypothesis sep_not_cls : forall c, psep c = true -> pcls c = false.

Lemma skip_ends (p : ascii -> bool) (s : string) : ends_value p (skip p s).
Proof.
  destruct (skip p s) as [|c r] eqn:E; [now left | right].
  exists c, r. split; auto. exact (skip_head _ _ _ _ E).
Qed.

(** The value read at a place stands in the text after the keyword, and
    no value character follows it. *)
Lemma field_at_delimited (s w : string) :
  field_at kw psep pcls s = Some w ->
  exists k mid post,
    s = (k ++ mid) ++ w ++ post /\ lower k = lower kw /\ ends_value pcls post.
Proof.
  unfold field_at.
  destruct (strip_keyword kw s) as [s1|] eqn:K; try discriminate.
  apply strip_keyword_spec in K as (k & -> & L).
  intros V. apply (value_at_some pcls) in V as (_ & _ & Wd).
  unfold value_start in Wd.
  destruct (skip_one_split psep (skip isspace s1)) as (h & Hh & _).
  set (b := skip_one psep (skip isspace s1)) in *.
  exists k, (take isspace s1 ++ h ++ take isspace b),
         (skip pcls (skip isspace b)).
  split; [|split; [exact L | apply skip_ends]].
  rewrite !append_assoc. f_equal.
  etransitivity; [symmetry; apply (take_skip isspace s1)|]. f_equal.
  etransitivity; [exact Hh|]. f_equal.
  etransitivity; [symmetry; apply (take_skip isspace b)|]. f_equal.
  exact Wd.
Qed.

Lemma search_delimited (text w : string) :
  Re.search (field_re kw sep cls) text re_IGNORECASE
  = Some {| Re.group1 := Some w |} ->
  exists pre post,
    text = pre ++ w ++ post /\ mentions kw pre /\ ends_value pcls post.
Proof.
  rewrite (search_field kw sep cls psep pcls) by assumption.
  destruct (first_field kw psep pcls text) as [w'|] eqn:F; try discriminate.
  intros [= ->].
  destruct (first_field_some _ _ _ _ _ F) as (pre & rest & -> & Fr & _).
  destruct (field_at_delimited _ _ Fr) as (k & mid & post & -> & L & En).
  exists (pre ++ k ++ mid), post. repeat split; auto.
  - now rewrite !append_assoc.
  - exists pre, k, mid. auto.
Qed.

End Delimited.

Lemma group_str (mo : Re.MatchObject) (w : string) :
  group mo = VStr w -> mo = {| Re.group1 := Some w |}.
Proof.
  destruct mo as [[g|]]; unfold group; simpl; try discriminate.
  now intros [= ->].
Qed.

(** X5.  For texts of code points below 256.  An [invoice_number] that is
    present stands in the text as it is, somewhere after the keyword
    ["Invoice"] in any case, and is not cut short: the text ends after it or
    goes on with a character that is not a word character. *)
Theorem invoice_number_delimited (text w : string) :
  invoice_number (extract_fields text) = Some (VStr w) ->
  exists pre post,
    text = pre ++ w ++ post
    /\ mentions "Invoice" pre
    /\ ends_value isword post.
Proof.
  rewrite extract_fields_invoice_number.
  destruct (Re.search invoice_re text re_IGNORECASE) as [mo|] eqn:S;
    try discriminate.
  intros [= G]. apply group_str in G. subst mo.
  apply (search_delimited "Invoice" invoice_sep invoice_cls is_hash isword);
    auto using invoice_sep_is, invoice_cls_is, space_not_hash,
               space_not_word, hash_not_word.
Qed.

Lemma invoice_number_delimited_witness :
  exists pre post,
    "Invoice#12345abc-7" = pre ++ "12345abc" ++ post
    /\ mentions "Invoice" pre
    /\ ends_value isword post.
Proof.
  apply (invoice_number_delimited "Invoice#12345abc-7" "12345abc").
  reflexivity.
Defined.

(** X6.  A [total] that is present stands in the text as it is, somewhere
    after the keyword ["Total"], and is not cut short: the text ends after
    it or goes on with a character that is not a digit, a comma or a
    period. *)
Theorem total_delimited (text w : string) :
  total (extract_fields text) = Some (VStr w) ->
  exists pre post,
    text = pre ++ w ++ post
    /\ mentions "Total" pre
    /\ ends_value is_amount_char post.
Proof.
  rewrite extract_fields_total.
  destruct (Re.search total_re text re_IGNORECASE) as [mo|] eqn:S;
    try discriminate.
  intros [= G]. apply group_str in G. subst mo.
  apply (search_delimited "Total" total_sep total_cls
           is_colon_or_dash is_amount_char);
    auto using total_sep_is, total_cls_is, space_not_colon_or_dash,
               space_not_amount, colon_or_dash_not_amount.
Qed.

Lemma total_delimited_witness :
  exists pre post,
    "Grand total: 1,250.50 EUR" = pre ++ "1,250.50" ++ post
    /\ mentions "Total" pre
    /\ ends_value is_amount_char post.
Proof.
  apply (total_delimited "Grand total: 1,250.50 EUR" "1,250.50").
  reflexivity.
Defined.

(** ** The case of the text *)

Lemma tolower_idem c : tolower (tolower c) = tolower c.
Proof. by_character c. Qed.

Lemma isspace_tolower c : isspace (tolower c) = isspace c.
Proof. by_character c. Qed.

Lemma isword_tolower c : isword (tolower c) = isword c.
Proof. by_character c. Qed.

Lemma is_hash_tolower c : is_hash (tolower c) = is_hash c.
Proof. by_character c. Qed.

Lemma is_colon_or_dash_tolower c :
  is_colon_or_dash (tolower c) = is_colon_or_dash c.
Proof. by_character c. Qed.

Lemma is_amount_char_tolower c :
  is_amount_char (tolower c) = is_amount_char c.
Proof. by_character c. Qed.

Lemma amount_char_has_no_case c : is_amount_char c = true -> tolower c = c.
Proof. by_character c. Qed.

Lemma lower_fixed (p : ascii -> bool) (s : string) :
  (forall c, p c = true -> tolower c = c) -> all p s = true -> lower s = s.
Proof.
  intros Hp. induction s as [|c s IH]; simpl; auto.
  intros A. apply andb_prop in A as [Ac As]. now rewrite (Hp c Ac), IH.
Qed.

Lemma strip_keyword_lower (kw s : string) :
  strip_keyword kw (lower s) = option_map lower (strip_keyword kw s).
Proof.
  revert s. induction kw as [|c kw IH]; intros [|ch s]; simpl; auto.
  rewrite tolower_idem. destruct (Ascii.eqb (tolower ch) (tolower c)); auto.
Qed.

Section LowerCase.

Variables (kw : string) (psep pcls : ascii -> bool).

Hypothesis psep_tolower : forall c, psep (tolower c) = psep c.
Hypothesis pcls_tolower : forall c, pcls (tolower c) = pcls c.

Lemma skip_lower (p : ascii -> bool) (s : string) :
  (forall c, p (tolower c) = p c) -> skip p (lower s) = lower (skip p s).
Proof.
  intros Hp. induction s as [|c s IH]; simpl; auto.
  rewrite Hp. destruct (p c); auto.
Qed.

Lemma take_lower (p : ascii -> bool) (s : string) :
  (forall c, p (tolower c) = p c) -> take p (lower s) = lower (take p s).
Proof.
  intros Hp. induction s as [|c s IH]; simpl; auto.
  rewrite Hp. destruct (p c); simpl; auto. now rewrite IH.
Qed.

Lemma skip_one_lower (s : string) :
  skip_one psep (lower s) = lower (skip_one psep s).
Proof.
  destruct s as [|c s]; simpl; auto.
  rewrite psep_tolower. destruct (psep c); auto.
Qed.

Lemma value_at_lower (s : string) :
  value_at pcls (lower s) = option_map lower (value_at pcls s).
Proof.
  unfold value_at. rewrite take_lower by assumption.
  destruct (take pcls s); reflexivity.
Qed.

Lemma field_at_lower (s : string) :
  field_at kw psep pcls (lower s)
  = option_map lower (field_at kw psep pcls s).
Proof.
  unfold field_at. rewrite strip_keyword_lower.
  destruct (strip_keyword kw s) as [s1|]; simpl; auto.
  unfold value_start.
  rewrite (skip_lower isspace), skip_one_lower, (skip_lower isspace)
    by apply isspace_tolower.
  apply value_at_lower.
Qed.

Lemma first_field_unfold (s : string) :
  first_field kw psep pcls s
  = match field_at kw psep pcls s with
    | Some w => Some w
    | None =>
        match s with
        | String _ s' => first_field kw psep pcls s'
        | EmptyString => None
        end
    end.
Proof. destruct s; reflexivity. Qed.

Lemma first_field_lower (s : string) :
  first_field kw psep pcls (lower s)
  = option_map lower (first_field kw psep pcls s).
Proof.
  induction s as [|c s IH];
    rewrite (first_field_unfold (lower _)), field_at_lower,
            (first_field_unfold (_ : string)).
  - now destruct (field_at kw psep pcls "").
  - destruct (field_at kw psep pcls (String c s)); simpl; auto.
Qed.

End LowerCase.

Lemma invoice_search_first (text : string) :
  Re.search invoice_re text re_IGNORECASE
  = found (first_field "Invoice" is_hash isword text).
Proof.
  apply (search_field "Invoice" invoice_sep invoice_cls);
    auto using invoice_sep_is, invoice_cls_is, space_not_hash,
               space_not_word, hash_not_word.
Qed.

Lemma total_search_first (text : string) :
  Re.search total_re text re_IGNORECASE
  = found (first_field "Total" is_colon_or_dash is_amount_char text).
Proof.
  apply (search_field "Total" total_sep total_cls);
    auto using total_sep_is, total_cls_is, space_not_colon_or_dash,
               space_not_amount, colon_or_dash_not_amount.
Qed.

(** X7.  Putting the whole text in lower case does not change where the
    fields are found: the [invoice_number] of the lower-case text is the
    [invoice_number] of the text in lower case, absent when that one is
    absent, and the [total] is the same. *)
Theorem extract_fields_lower (text : string) :
  invoice_number (extract_fields (lower text))
  = option_map lower_value (invoice_number (extract_fields text))
  /\ total (extract_fields (lower text)) = total (extract_fields text).
Proof.
  split.
  - rewrite !extract_fields_invoice_number, !invoice_search_first.
    rewrite first_field_lower
      by auto using is_hash_tolower, isword_tolower.
    now destruct (first_field "Invoice" is_hash isword text).
  - rewrite !extract_fields_total.
    destruct (Re.search total_re text re_IGNORECASE) as [mo|] eqn:S.
    + destruct (total_search_some _ _ S) as (pre & m & post & w & G & _ & Mm).
      destruct Mm as (k & sp1 & h & sp2 & _ & _ & _ & _ & _ & _ & Wa).
      rewrite total_search_first in *.
      rewrite first_field_lower
        by auto using is_colon_or_dash_tolower, is_amount_char_tolower.
      destruct (first_field "Total" is_colon_or_dash is_amount_char text)
        as [w'|]; try discriminate.
      injection S as <-. injection G as ->.
      simpl. unfold group. simpl.
      now rewrite (lower_fixed _ _ amount_char_has_no_case Wa).
    + rewrite total_search_first in *.
      rewrite first_field_lower
        by auto using is_colon_or_dash_tolower, is_amount_char_tolower.
      now destruct (first_field "Total" is_colon_or_dash is_amount_char text).
Qed.

Example lower_case_scenario :
  extract_fields (lower "INVOICE #Ab12, Total : 1,0.5")
  = [ ("invoice_number", VStr "ab12"); ("vendor", VNone);
      ("date", VNone); ("total", VStr "1,0.5") ].
Proof. vm_compute. reflexivity. Qed.

(** ** More on ledger matching *)

(** X8.  [match_against_po] raises in two cases only, both a [KeyError]:
    the record has no [invoice_number] key, or the number is set (not
    [None], not empty) and the ledger has no [InvoiceNumber] column. *)
Theorem match_raises_key_errors (fields : dict) (ledger : DataFrame) e :
  match_against_po fields ledger = Raise e
  <-> (e = KeyError "invoice_number" /\ invoice_number fields = None)
      \/ (e = KeyError "InvoiceNumber"
          /\ index_of "InvoiceNumber" (columns ledger) = None
          /\ exists v, invoice_number fields = Some v /\ truthy v = true).
Proof.
  unfold match_against_po, dict_getitem, invoice_number, df_getitem.
  destruct (dict_get fields "invoice_number") as [v|].
  - destruct (truthy v) eqn:T; cbn [negb].
    + destruct (index_of "InvoiceNumber" (columns ledger)) as [i|].
      * split; try discriminate.
        intros [[_ ?] | (_ & ? & _)]; discriminate.
      * split.
        -- intros [= <-]. right. eauto.
        -- intros [[_ ?] | (-> & _)]; [discriminate | reflexivity].
    + split; try discriminate.
      intros [[_ ?] | (_ & _ & v' & [= <-] & ?)]; [discriminate | congruence].
  - split.
    + intros [= <-]. now left.
    + intros [[-> _] | (_ & _ & v & ? & _)]; [reflexivity | discriminate].
Qed.

Lemma match_raises_key_errors_witness :
  match_against_po [("total", VStr "5")] (ledger_of ["A1"])
  = Raise (KeyError "invoice_number").
Proof.
  apply (proj2 (match_raises_key_errors
                  [("total", VStr "5")] (ledger_of ["A1"])
                  (KeyError "invoice_number"))).
  left. split; reflexivity.
Defined.

Lemma contains_incl (v1 v2 : list value) (x : value) :
  incl v1 v2 -> contains v1 x = true -> contains v2 x = true.
Proof.
  unfold contains. rewrite !existsb_exists.
  intros I (v & Hv & E). exists v. auto.
Qed.

(** X9.  A record that matches a ledger matches every ledger whose
    [InvoiceNumber] column has the same values and possibly more: adding
    rows, repeating them or changing their order never loses a match. *)
Theorem match_grows_with_ledger
        (fields : dict) (ledger1 ledger2 : DataFrame) v1 v2 :
  df_getitem ledger1 "InvoiceNumber" = Ok v1 ->
  df_getitem ledger2 "InvoiceNumber" = Ok v2 ->
  incl v1 v2 ->
  match_against_po fields ledger1 = Ok true ->
  match_against_po fields ledger2 = Ok true.
Proof.
  unfold match_against_po. intros D1 D2 I.
  destruct (dict_getitem fields "invoice_number") as [v|]; auto.
  destruct (negb (truthy v)); auto.
  rewrite D1, D2. intros [= C]. now rewrite (contains_incl _ _ _ I C).
Qed.

Lemma match_grows_with_ledger_witness :
  match_against_po [("invoice_number", VStr "A1")]
                   (ledger_of ["B2"; "A1"; "B2"; "C3"])
  = Ok true.
Proof.
  apply (match_grows_with_ledger
           [("invoice_number", VStr "A1")]
           (ledger_of ["A1"; "B2"]) (ledger_of ["B2"; "A1"; "B2"; "C3"])
           [VStr "A1"; VStr "B2"]
           [VStr "B2"; VStr "A1"; VStr "B2"; VStr "C3"]).
  - reflexivity.
  - reflexivity.
  - intros x [<- | [<- | []]]; simpl; auto.
  - reflexivity.
Defined.

(** X10.  When no value of the [InvoiceNumber] column is a string, as in a
    column of numbers, no record whose [invoice_number] is a string or
    absent matches: the number 123 is not the string ["123"]. *)
Theorem match_needs_string_values
        (fields : dict) (ledger : DataFrame) (values : list value) :
  optional_str (invoice_number fields) ->
  df_getitem ledger "InvoiceNumber" = Ok values ->
  (forall s, ~ In (VStr s) values) ->
  match_against_po fields ledger = Ok false.
Proof.
  intros [N | (s & N)] D No.
  - now apply match_against_po_none.
  - rewrite (match_against_po_str _ _ _ N), D.
    destruct (s =? "")%string; auto.
    destruct (contains values (VStr s)) eqn:C; auto.
    apply contains_str in C. now apply No in C.
Qed.

Lemma match_needs_string_values_witness :
  match_against_po
    [("invoice_number", VStr "123")]
    {| columns := ["PO"; "InvoiceNumber"];
       rows := [[VStr "P1"; VInt 123]; [VStr "P2"; VNaN]] |}
  = Ok false.
Proof.
  apply (match_needs_string_values
           [("invoice_number", VStr "123")]
           {| columns := ["PO"; "InvoiceNumber"];
              rows := [[VStr "P1"; VInt 123]; [VStr "P2"; VNaN]] |}
           [VInt 123; VNaN]).
  - right. exists "123". reflexivity.
  - reflexivity.
  - intros s [H | [H | []]]; discriminate H.
Defined.

(** ** More on batch processing *)

(** The loop only opens documents: it writes and prints nothing. *)
Lemma for_each_file_frame w folder ledger names :
  forall results st r st',
    for_each_file w folder ledger names results st = (r, st') ->
    written st' = written st /\ stdout st' = stdout st
    /\ exists paths, opened st' = (opened st ++ paths)%list.
Proof.
  induction names as [|f names IH]; intros results st r st' H.
  - injection H as _ <-. repeat split. exists []. now rewrite app_nil_r.
  - destruct (is_pdf f) eqn:P.
    + rewrite for_each_file_pdf in H by assumption.
      destruct (file_record w folder ledger f) as [d|e].
      * destruct (IH _ _ _ _ H) as (W & O & paths & Op).
        repeat split; auto. simpl in Op. rewrite <- app_assoc in Op. eauto.
      * injection H as _ <-. repeat split. simpl. eauto.
    + rewrite for_each_file_skip in H by assumption. eauto.
Qed.

(** X11.  When the ledger cannot be loaded, or the ledger is loaded and the
    folder cannot be listed, the run raises that exception before any
    document is opened: nothing is opened, written or printed. *)
Theorem load_failure_leaves_no_trace w folder po out e st :
  read_csv w po = Raise e
  \/ (exists ledger, read_csv w po = Ok ledger /\ listdir w folder = Raise e) ->
  process_invoices w folder po out st = (Raise e, st).
Proof.
  rewrite process_invoices_run.
  intros [-> | (ledger & -> & ->)]; reflexivity.
Qed.

Lemma load_failure_leaves_no_trace_witness :
  process_invoices
    (world_of (Raise (Failure "no ledger")) (Raise (Failure "no folder"))
              sample_pdf None)
    "in" "po.csv" "out.csv" initial
  = (Raise (Failure "no ledger"), initial).
Proof.
  apply (load_failure_leaves_no_trace
           (world_of (Raise (Failure "no ledger")) (Raise (Failure "no folder"))
                     sample_pdf None)
           "in" "po.csv" "out.csv" (Failure "no ledger") initial).
  left. reflexivity.
Defined.

(** X12.  When every document is processed and the table cannot be
    written, the run raises the exception of the write after having opened
    every document: nothing is written and no summary is printed. *)
Theorem write_failure_after_all_documents
        w folder po out ledger names recs e st :
  read_csv w po = Ok ledger ->
  listdir w folder = Ok names ->
  Forall2 (fun f d => file_record w folder ledger f = Ok d)
          (filter is_pdf names) recs ->
  to_csv_failure w out = Some e ->
  process_invoices w folder po out st
  = (Raise e,
     {| opened :=
          (opened st ++ map (path_join folder) (filter is_pdf names))%list;
        written := written st;
        stdout := stdout st |}).
Proof.
  intros Hcsv Hdir F Hout.
  rewrite process_invoices_run, Hcsv, Hdir.
  now rewrite (for_each_file_ok _ _ _ _ _ F), Hout.
Qed.

Lemma write_failure_after_all_documents_witness :
  process_invoices
    (world_of (Ok (ledger_of ["A100"])) (Ok ["a.pdf"; "blank.pdf"])
              sample_pdf (Some (Failure "read-only")))
    "in" "po.csv" "out.csv" initial
  = (Raise (Failure "read-only"),
     {| opened := ["in/a.pdf"; "in/blank.pdf"];
        written := [];
        stdout := [] |}).
Proof.
  apply (write_failure_after_all_documents
           (world_of (Ok (ledger_of ["A100"])) (Ok ["a.pdf"; "blank.pdf"])
                     sample_pdf (Some (Failure "read-only")))
           "in" "po.csv" "out.csv" (ledger_of ["A100"])
           ["a.pdf"; "blank.pdf"]
           [ [ ("invoice_number", VStr "A100"); ("vendor", VNone);
               ("date", VNone); ("total", VStr "250.00");
               ("file", VStr "a.pdf"); ("matched", VBool true) ];
             blank_record "blank.pdf" ]
           (Failure "read-only") initial); try reflexivity.
  repeat constructor.
Defined.

(** X13.  The table is written only after the loop over the entries has
    finished.  The loop opens documents and writes and prints nothing.  When
    the loop raises, the run raises the same exception in the same state: no
    table is written.  A run that returns has added one table, at the output
    path and made of the records of the loop, and one summary line, after
    what was written and printed before. *)
Theorem table_written_after_loop w folder po out ledger names st r st1 :
  read_csv w po = Ok ledger ->
  listdir w folder = Ok names ->
  for_each_file w folder ledger names [] st = (r, st1) ->
  written st1 = written st
  /\ stdout st1 = stdout st
  /\ (exists paths, opened st1 = (opened st ++ paths)%list)
  /\ match r with
     | Raise e => process_invoices w folder po out st = (Raise e, st1)
     | Ok results =>
         forall st',
           process_invoices w folder po out st = (Ok tt, st') ->
           opened st' = opened st1
           /\ written st'
              = (written st ++ [(out, DataFrame_of_records results)])%list
           /\ stdout st'
              = (stdout st ++ [summary (List.length results) out])%list
     end.
Proof.
  intros Hcsv Hdir L.
  destruct (for_each_file_frame _ _ _ _ _ _ _ _ L) as (W & O & P).
  repeat split; auto.
  destruct r as [results|e]; rewrite process_invoices_run, Hcsv, Hdir, L.
  - destruct (to_csv_failure w out); try discriminate.
    intros st' [= <-]. simpl. now rewrite W, O.
  - reflexivity.
Qed.

Lemma table_written_after_loop_witness :
  (@nil (string * DataFrame) = []
   /\ @nil string = []
   /\ (exists paths, ["in/a.pdf"; "in/broken.pdf"] = ([] ++ paths)%list)
   /\ process_invoices
        (sample_world ["a.pdf"; "broken.pdf"; "c.pdf"] ["A100"])
        "in" "po.csv" "out.csv" initial
      = (Raise (Failure "unreadable"),
         {| opened := ["in/a.pdf"; "in/broken.pdf"];
            written := []; stdout := [] |})).
Proof.
  apply (table_written_after_loop
           (sample_world ["a.pdf"; "broken.pdf"; "c.pdf"] ["A100"])
           "in" "po.csv" "out.csv" (ledger_of ["A100"])
           ["a.pdf"; "broken.pdf"; "c.pdf"] initial
           (Raise (Failure "unreadable"))
           {| opened := ["in/a.pdf"; "in/broken.pdf"];
              written := []; stdout := [] |}).
  - reflexivity.
  - reflexivity.
  - vm_compute. reflexivity.
Defined.

(** *** A ledger without the [InvoiceNumber] column *)

Lemma invoice_number_cases (text : string) :
  invoice_number (extract_fields text) = Some VNone
  \/ exists s, invoice_number (extract_fields text) = Some (VStr s) /\ s <> "".
Proof.
  rewrite extract_fields_invoice_number.
  destruct (Re.search invoice_re text re_IGNORECASE) as [mo|] eqn:S; auto.
  destruct (invoice_search_some _ _ S) as (pre & m & post & w & G & _ & Mm).
  destruct Mm as (k & sp1 & h & sp2 & _ & _ & _ & _ & _ & Wn & _).
  right. exists w. unfold group. rewrite G. auto.
Qed.

Lemma record_fields (text fname : string) (matched : bool) :
  let d := dict_set (dict_set (extract_fields text) "file" (VStr fname))
                    "matched" (VBool matched) in
  dict_get d "matched" = Some (VBool matched)
  /\ dict_get d "invoice_number" = invoice_number (extract_fields text)
  /\ dict_get d "total" = total (extract_fields text).
Proof.
  unfold extract_fields, invoice_number, total.
  destruct (Re.search invoice_re text re_IGNORECASE);
    destruct (Re.search total_re text re_IGNORECASE); repeat split.
Qed.

Lemma file_record_without_number w folder ledger f text :
  document_text w (path_join folder f) = Ok text ->
  invoice_number (extract_fields text) = Some VNone ->
  file_record w folder ledger f
  = Ok (dict_set (dict_set (extract_fields text) "file" (VStr f))
                 "matched" (VBool false)).
Proof.
  intros D N. unfold file_record.
  now rewrite D, (match_against_po_none _ _ N).
Qed.

Lemma records_without_number w folder ledger (names : list string) :
  (forall f, In f names ->
     exists text,
       document_text w (path_join folder f) = Ok text
       /\ invoice_number (extract_fields text) = Some VNone) ->
  exists recs,
    Forall2 (fun f d => file_record w folder ledger f = Ok d) names recs
    /\ Forall (fun d => dict_get d "matched" = Some (VBool false)) recs.
Proof.
  induction names as [|f names IH]; intros H.
  - exists []. split; constructor.
  - destruct (H f (or_introl eq_refl)) as (text & D & N).
    destruct IH as (recs & F & A); [intros; apply H; now right|].
    exists (dict_set (dict_set (extract_fields text) "file" (VStr f))
                     "matched" (VBool false) :: recs).
    split; constructor; auto.
    + now apply file_record_without_number.
    + apply (record_fields text f false).
Qed.

Lemma for_each_file_raise_record w folder ledger before fname after e :
  is_pdf fname = true ->
  (forall f, In f (filter is_pdf before) ->
             exists d, file_record w folder ledger f = Ok d) ->
  file_record w folder ledger fname = Raise e ->
  forall results st,
    for_each_file w folder ledger (before ++ fname :: after)%list results st
    = (Raise e,
       open_more st (map (path_join folder) (filter is_pdf before)
                     ++ [path_join folder fname])%list).
Proof.
  intros P B D. induction before as [|f before IH]; intros results st.
  - simpl app. rewrite for_each_file_pdf by assumption. now rewrite D.
  - simpl app. cbn [filter] in *. destruct (is_pdf f) eqn:Pf.
    + rewrite for_each_file_pdf by assumption.
      destruct (B f (or_introl eq_refl)) as [d ->].
      rewrite IH by (intros; apply B; now right).
      now rewrite open_more_more.
    + rewrite for_each_file_skip by assumption. now apply IH.
Qed.

(** X14.  The [InvoiceNumber] column is looked up only when a document has
    an invoice number.  With a ledger without that column, the documents
    without a number are processed, and the first document with a number
    makes the run raise [KeyError('InvoiceNumber')]: no later document is
    opened, no table is written. *)
Theorem missing_column_raises_at_first_number
        w folder po out ledger before fname after text s st :
  read_csv w po = Ok ledger ->
  index_of "InvoiceNumber" (columns ledger) = None ->
  listdir w folder = Ok (before ++ fname :: after)%list ->
  is_pdf fname = true ->
  (forall f, In f (filter is_pdf before) ->
     exists text',
       document_text w (path_join folder f) = Ok text'
       /\ invoice_number (extract_fields text') = Some VNone) ->
  document_text w (path_join folder fname) = Ok text ->
  invoice_number (extract_fields text) = Some (VStr s) ->
  process_invoices w folder po out st
  = (Raise (KeyError "InvoiceNumber"),
     {| opened :=
          (opened st
           ++ (map (path_join folder) (filter is_pdf before)
               ++ [path_join folder fname]))%list;
        written := written st;
        stdout := stdout st |}).
Proof.
  intros Hcsv Hcol Hdir P B D N.
  rewrite process_invoices_run, Hcsv, Hdir.
  rewrite (for_each_file_raise_record w folder ledger before fname after
             (KeyError "InvoiceNumber")); auto.
  - intros f I. destruct (B f I) as (text' & D' & N').
    eexists. exact (file_record_without_number _ _ _ _ _ D' N').
  - unfold file_record. rewrite D, (match_against_po_str _ _ _ N).
    destruct (invoice_number_cases text) as [N' | (s' & N' & Ne)];
      [congruence|].
    assert (s' = s) by congruence. subst s'.
    destruct (String.eqb_spec s ""); try contradiction.
    unfold df_getitem. now rewrite Hcol.
Qed.

Lemma missing_column_raises_at_first_number_witness :
  process_invoices
    (world_of (Ok no_ledger) (Ok ["blank.pdf"; "a.pdf"; "b.pdf"])
              sample_pdf None)
    "in" "po.csv" "out.csv" initial
  = (Raise (KeyError "InvoiceNumber"),
     {| opened := ["in/blank.pdf"; "in/a.pdf"];
        written := [];
        stdout := [] |}).
Proof.
  apply (missing_column_raises_at_first_number
           (world_of (Ok no_ledger) (Ok ["blank.pdf"; "a.pdf"; "b.pdf"])
                     sample_pdf None)
           "in" "po.csv" "out.csv" no_ledger
           ["blank.pdf"] "a.pdf" ["b.pdf"] scenario_text "A100" initial);
    try reflexivity.
  intros f [<- | []]. exists (LF : string). split; reflexivity.
Defined.

(** X15.  With a ledger without the [InvoiceNumber] column and documents
    that all have no invoice number, the run completes: the missing column
    goes unnoticed, every document gets a row and every row is unmatched. *)
Theorem missing_column_unnoticed w folder po out ledger names st :
  read_csv w po = Ok ledger ->
  index_of "InvoiceNumber" (columns ledger) = None ->
  listdir w folder = Ok names ->
  (forall f, In f (filter is_pdf names) ->
     exists text,
       document_text w (path_join folder f) = Ok text
       /\ invoice_number (extract_fields text) = Some VNone) ->
  to_csv_failure w out = None ->
  exists results,
    process_invoices w folder po out st
    = (Ok tt,
       {| opened :=
            (opened st ++ map (path_join folder) (filter is_pdf names))%list;
          written :=
            (written st ++ [(out, DataFrame_of_records results)])%list;
          stdout :=
            (stdout st
             ++ [summary (List.length (filter is_pdf names)) out])%list |})
    /\ List.length results = List.length (filter is_pdf names)
    /\ Forall (fun d => dict_get d "matched" = Some (VBool false)) results.
Proof.
  intros Hcsv _ Hdir B Hout.
  destruct (records_without_number w folder ledger _ B) as (recs & F & A).
  exists recs. repeat split; auto.
  - rewrite process_invoices_run, Hcsv, Hdir.
    rewrite (for_each_file_ok _ _ _ _ _ F), Hout. simpl.
    now rewrite (Forall2_length F).
  - symmetry. apply (Forall2_length F).
Qed.

Lemma missing_column_unnoticed_witness :
  exists results,
    process_invoices
      (world_of (Ok no_ledger) (Ok ["blank.pdf"; "readme.md"])
                sample_pdf None)
      "in" "po.csv" "out.csv" initial
    = (Ok tt,
       {| opened := ([] ++ ["in/blank.pdf"])%list;
          written := ([] ++ [("out.csv", DataFrame_of_records results)])%list;
          stdout := ([] ++ [summary 1 "out.csv"])%list |})
    /\ List.length results = 1
    /\ Forall (fun d => dict_get d "matched" = Some (VBool false)) results.
Proof.
  apply (missing_column_unnoticed
           (world_of (Ok no_ledger) (Ok ["blank.pdf"; "readme.md"])
                     sample_pdf None)
           "in" "po.csv" "out.csv" no_ledger ["blank.pdf"; "readme.md"]
           initial); try reflexivity.
  intros f [<- | []]. exists (LF : string). split; reflexivity.
Defined.

(** *** The table of a run that completes *)

Lemma completed_run w folder po out st st' :
  process_invoices w folder po out st = (Ok tt, st') ->
  exists ledger names recs,
    read_csv w po = Ok ledger
    /\ listdir w folder = Ok names
    /\ Forall2 (fun f d => file_record w folder ledger f = Ok d)
               (filter is_pdf names) recs
    /\ st' = {| opened :=
                  (opened st
                   ++ map (path_join folder) (filter is_pdf names))%list;
                written :=
                  (written st ++ [(out, DataFrame_of_records recs)])%list;
                stdout :=
                  (stdout st ++ [summary (List.length recs) out])%list |}.
Proof.
  rewrite process_invoices_run.
  destruct (read_csv w po) as [ledger|]; try discriminate.
  destruct (listdir w folder) as [names|]; try discriminate.
  destruct (for_each_file w folder ledger names [] st)
    as [[results|] st1] eqn:L; try discriminate.
  destruct (to_csv_failure w out); try discriminate.
  intros [= <-].
  destruct (for_each_file_inv _ _ _ _ _ _ _ _ L) as (recs & -> & F).
  pose proof (for_each_file_ok _ _ _ _ _ F [] st) as L'.
  rewrite L in L'. injection L' as ->.
  exists ledger, names, recs. repeat split; auto.
Qed.

Lemma record_row_length (cols : list string) (d : dict) :
  List.length (record_row cols d) = List.length cols.
Proof. unfold record_row. apply length_map. Qed.

Lemma records_keys w folder ledger (names : list string) recs :
  Forall2 (fun f d => file_record w folder ledger f = Ok d) names recs ->
  Forall (fun d => keys d = output_columns) recs.
Proof.
  induction 1 as [|f d fs ds Fd _ IH]; constructor; auto.
  now apply (file_record_shape _ _ _ _ _ Fd).
Qed.

(** X16.  A run that completes with at least one [.pdf] entry has written
    a table whose columns are [invoice_number], [vendor], [date], [total],
    [file], [matched], in this order, and whose rows all have six cells. *)
Theorem header_of_completed_run w folder po out names st st' :
  process_invoices w folder po out st = (Ok tt, st') ->
  listdir w folder = Ok names ->
  filter is_pdf names <> [] ->
  exists df,
    written st' = (written st ++ [(out, df)])%list
    /\ columns df = output_columns
    /\ Forall (fun row => List.length row = 6) (rows df).
Proof.
  intros H Hdir Ne.
  destruct (completed_run _ _ _ _ _ _ H)
    as (ledger & names' & recs & _ & Hdir' & F & ->).
  assert (names' = names) by congruence. subst names'.
  assert (C : record_columns recs = output_columns).
  { apply record_columns_uniform.
    - apply (records_keys _ _ _ _ _ F).
    - intros ->. inversion F as [E|]. now rewrite <- E in Ne. }
  exists (DataFrame_of_records recs). repeat split; auto.
  unfold DataFrame_of_records. cbn [rows]. rewrite C.
  apply Forall_forall. intros row I. apply in_map_iff in I as (d & <- & _).
  apply record_row_length.
Qed.

Lemma header_of_completed_run_witness :
  exists df,
    [("out.csv",
      {| columns := output_columns;
         rows := [[VNone; VNone; VNone; VNone;
                   VStr "blank.pdf"; VBool false]] |})]
    = ([] ++ [("out.csv", df)])%list
    /\ columns df = output_columns
    /\ Forall (fun row => List.length row = 6) (rows df).
Proof.
  apply (header_of_completed_run
           (world_of (Ok no_ledger) (Ok ["blank.pdf"; "readme.md"])
                     sample_pdf None)
           "in" "po.csv" "out.csv" ["blank.pdf"; "readme.md"] initial
           {| opened := ["in/blank.pdf"];
              written :=
                [("out.csv",
                  {| columns := output_columns;
                     rows := [[VNone; VNone; VNone; VNone;
                               VStr "blank.pdf"; VBool false]] |})];
              stdout := ["Processed 1 invoices; results saved to out.csv"] |}).
  - vm_compute. reflexivity.
  - reflexivity.
  - discriminate.
Defined.

(** X17.  A run that completes has opened each [.pdf] entry once, by the
    path made of the folder and the name, in the order of the entries, and
    the number in its summary is the number of these entries. *)
Theorem completed_run_effects w folder po out names st st' :
  process_invoices w folder po out st = (Ok tt, st') ->
  listdir w folder = Ok names ->
  opened st'
  = (opened st ++ map (path_join folder) (filter is_pdf names))%list
  /\ stdout st'
     = (stdout st ++ [summary (List.length (filter is_pdf names)) out])%list.
Proof.
  intros H Hdir.
  destruct (completed_run _ _ _ _ _ _ H)
    as (ledger & names' & recs & _ & Hdir' & F & ->).
  assert (names' = names) by congruence. subst names'.
  simpl. now rewrite (Forall2_length F).
Qed.

Lemma completed_run_effects_witness :
  ["in/a.PDF"; "in/b.pdf"]
  = ([] ++ map (path_join "in")
               (filter is_pdf ["a.PDF"; "notes.txt"; "b.pdf"]))%list
  /\ ["Processed 2 invoices; results saved to out.csv"]
     = ([] ++ [summary (List.length
                          (filter is_pdf ["a.PDF"; "notes.txt"; "b.pdf"]))
                       "out.csv"])%list.
Proof.
  apply (completed_run_effects
           (sample_world ["a.PDF"; "notes.txt"; "b.pdf"] ["A100"])
           "in" "po.csv" "out.csv" ["a.PDF"; "notes.txt"; "b.pdf"] initial
           {| opened := ["in/a.PDF"; "in/b.pdf"];
              written :=
                [("out.csv",
                  {| columns := output_columns;
                     rows := [[VStr "A100"; VNone; VNone; VStr "250.00";
                               VStr "a.PDF"; VBool true];
                              [VStr "A100"; VNone; VNone; VStr "250.00";
                               VStr "b.pdf"; VBool true]] |})];
              stdout := ["Processed 2 invoices; results saved to out.csv"] |}).
  - vm_compute. reflexivity.
  - reflexivity.
Defined.

Lemma file_record_matched w folder ledger f d :
  file_record w folder ledger f = Ok d ->
  exists text matched,
    match_against_po (extract_fields text) ledger = Ok matched
    /\ dict_get d "matched" = Some (VBool matched)
    /\ dict_get d "invoice_number" = invoice_number (extract_fields text).
Proof.
  unfold file_record.
  destruct (document_text w (path_join folder f)) as [text|]; try discriminate.
  destruct (match_against_po (extract_fields text) ledger) as [matched|] eqn:Mt;
    try discriminate.
  intros [= <-]. exists text, matched. split; auto.
  destruct (record_fields text f matched) as (A & B & _). auto.
Qed.

Lemma records_matched w folder ledger (names : list string) recs :
  Forall2 (fun f d => file_record w folder ledger f = Ok d) names recs ->
  Forall (fun d =>
            (exists b, dict_get d "matched" = Some (VBool b))
            /\ (dict_get d "matched" = Some (VBool true) ->
                exists s, dict_get d "invoice_number" = Some (VStr s)
                          /\ s <> "" /\ ledger_has ledger s))
         recs.
Proof.
  induction 1 as [|f d fs ds Fd _ IH]; constructor; auto.
  destruct (file_record_matched _ _ _ _ _ Fd) as (text & matched & Mt & Dm & Dn).
  split; [eauto|].
  rewrite Dm, Dn. intros [= ->].
  destruct (invoice_number_cases text) as [N | (s & N & _)].
  - rewrite (match_against_po_none _ _ N) in Mt. discriminate.
  - exists s. split; auto.
    now apply (match_against_po_true_inv (extract_fields text) ledger).
Qed.

(** X18.  In the table of a run that completes, [matched] is a boolean in
    every record, and a record with [matched] true has an [invoice_number]
    that is a non-empty string and stands in the [InvoiceNumber] column of
    the ledger that was loaded. *)
Theorem matched_rows_are_in_ledger w folder po out ledger st st' :
  process_invoices w folder po out st = (Ok tt, st') ->
  read_csv w po = Ok ledger ->
  exists results,
    written st' = (written st ++ [(out, DataFrame_of_records results)])%list
    /\ Forall (fun d =>
                 (exists b, dict_get d "matched" = Some (VBool b))
                 /\ (dict_get d "matched" = Some (VBool true) ->
                     exists s, dict_get d "invoice_number" = Some (VStr s)
                               /\ s <> "" /\ ledger_has ledger s))
              results.
Proof.
  intros H Hcsv.
  destruct (completed_run _ _ _ _ _ _ H)
    as (ledger' & names & recs & Hcsv' & _ & F & ->).
  assert (ledger' = ledger) by congruence. subst ledger'.
  exists recs. split; [reflexivity|].
  apply (records_matched _ _ _ _ _ F).
Qed.

Lemma matched_rows_are_in_ledger_witness :
  exists results,
    [("out.csv",
      {| columns := output_columns;
         rows := [[VStr "A100"; VNone; VNone; VStr "250.00";
                   VStr "a.pdf"; VBool true];
                  [VNone; VNone; VNone; VNone;
                   VStr "blank.pdf"; VBool false]] |})]
    = ([] ++ [("out.csv", DataFrame_of_records results)])%list
    /\ Forall (fun d =>
                 (exists b, dict_get d "matched" = Some (VBool b))
                 /\ (dict_get d "matched" = Some (VBool true) ->
                     exists s, dict_get d "invoice_number" = Some (VStr s)
                               /\ s <> ""
                               /\ ledger_has (ledger_of ["B7"; "A100"]) s))
              results.
Proof.
  apply (matched_rows_are_in_ledger
           (world_of (Ok (ledger_of ["B7"; "A100"]))
                     (Ok ["a.pdf"; "blank.pdf"]) sample_pdf None)
           "in" "po.csv" "out.csv" (ledger_of ["B7"; "A100"]) initial
           {| opened := ["in/a.pdf"; "in/blank.pdf"];
              written :=
                [("out.csv",
                  {| columns := output_columns;
                     rows := [[VStr "A100"; VNone; VNone; VStr "250.00";
                               VStr "a.pdf"; VBool true];
                              [VNone; VNone; VNone; VNone;
                               VStr "blank.pdf"; VBool false]] |})];
              stdout := ["Processed 2 invoices; results saved to out.csv"] |}).
  - vm_compute. reflexivity.
  - reflexivity.
Defined.

(** *** The loop over the entries *)

(** X19.  Entries whose name does not end with [.pdf] in any case are not
    opened and change nothing: the loop over the entries of a folder does
    what the loop over its [.pdf] entries alone does. *)
Theorem other_entries_are_ignored w folder ledger names results st :
  for_each_file w folder ledger names results st
  = for_each_file w folder ledger (filter is_pdf names) results st.
Proof.
  revert results st. induction names as [|f names IH]; intros results st; auto.
  cbn [filter]. destruct (is_pdf f) eqn:P.
  - rewrite !for_each_file_pdf by assumption.
    destruct (file_record w folder ledger f); auto.
  - rewrite for_each_file_skip by assumption. apply IH.
Qed.

(** X20.  Processing the entries of a folder is processing a first part of
    them and then, when that part raised nothing, the rest, with the
    records and the state the first part left. *)
Theorem for_each_file_app w folder ledger names1 names2 results st :
  for_each_file w folder ledger (names1 ++ names2)%list results st
  = match for_each_file w folder ledger names1 results st with
    | (Ok results1, st1) => for_each_file w folder ledger names2 results1 st1
    | (Raise e, st1) => (Raise e, st1)
    end.
Proof.
  revert results st.
  induction names1 as [|f names1 IH]; intros results st; auto.
  simpl app. destruct (is_pdf f) eqn:P.
  - rewrite !for_each_file_pdf by assumption.
    destruct (file_record w folder ledger f); auto.
  - rewrite !for_each_file_skip by assumption. apply IH.
Qed.

(** *** Which entries are documents *)

Lemma lower_append (a b : string) : lower (a ++ b) = lower a ++ lower b.
Proof. induction a as [|c a IH]; simpl; congruence. Qed.

Lemma lower_append_inv (s a b : string) :
  lower s = a ++ b ->
  exists a' b', s = a' ++ b' /\ lower a' = a /\ lower b' = b.
Proof.
  revert s. induction a as [|c a IH]; intros s E.
  - exists "", s. auto.
  - destruct s as [|c' s]; try discriminate.
    simpl in E. injection E as Ec E.
    destruct (IH _ E) as (a' & b' & -> & La & Lb).
    exists (String c' a'), b'. simpl. repeat split; congruence.
Qed.

Lemma substring_drop (a b : string) n :
  substring (String.length a) n (a ++ b) = substring 0 n b.
Proof. induction a; simpl; auto. Qed.

Lemma substring_whole (b : string) : substring 0 (String.length b) b = b.
Proof. induction b; simpl; congruence. Qed.

Lemma substring_split (s : string) n :
  n <= String.length s ->
  s = substring 0 n s ++ substring n (String.length s - n) s.
Proof.
  revert n. induction s as [|c s IH]; intros [|n] L; simpl in *; auto;
    try lia.
  - now rewrite substring_whole.
  - rewrite <- IH by lia. reflexivity.
Qed.

Lemma endswith_iff (s suffix : string) :
  endswith s suffix = true <-> exists pre, s = pre ++ suffix.
Proof.
  unfold endswith. rewrite andb_true_iff, Nat.leb_le, String.eqb_eq. split.
  - intros [L E].
    exists (substring 0 (String.length s - String.length suffix) s).
    assert (Sp := substring_split s (String.length s - String.length suffix)
                    (Nat.le_sub_l _ _)).
    replace (String.length s - (String.length s - String.length suffix))
      with (String.length suffix) in Sp by lia.
    now rewrite E in Sp.
  - intros (pre & ->). rewrite length_append. split; [lia|].
    replace (String.length pre + String.length suffix - String.length suffix)
      with (String.length pre) by lia.
    rewrite substring_drop. apply substring_whole.
Qed.

(** X21.  An entry is taken as a document exactly when its name ends with
    four characters that are [.pdf] in any mix of upper and lower case;
    what stands before them does not matter. *)
Theorem is_pdf_iff (fname : string) :
  is_pdf fname = true
  <-> exists stem ext, fname = stem ++ ext /\ lower ext = ".pdf".
Proof.
  unfold is_pdf. rewrite endswith_iff. split.
  - intros (pre & E). apply lower_append_inv in E as (a & b & -> & _ & Lb).
    eauto.
  - intros (stem & ext & -> & L). exists (lower stem).
    now rewrite lower_append, L.
Qed.

Lemma is_pdf_iff_witness : is_pdf "2024/Scan 01.PdF" = true.
Proof.
  apply (proj2 (is_pdf_iff "2024/Scan 01.PdF")).
  exists "2024/Scan 01", ".PdF". split; reflexivity.
Defined.
